(** * insta-card: the reaction state machine, the fetch/hydrate sequencer,
      the persistence bridge and the visibility gate of [src/insta-card.js]

    The component is a LitElement whose logic lives in [storageKey],
    [_hydrateFromStorage], [_persist], [_fetchFox], [_toggleSave],
    [_react], [_refresh] and the IntersectionObserver callback installed
    by [connectedCallback].  Each of them is embedded below as a function
    on the component's reactive properties ([CardState]) and on
    [localStorage] (a finite map from keys to stored texts).

    Conventions of the embedding.
    - The two counters are integers ([Z]), as in the data model of the
      specification; [Math.max(0, n - 1)] is [Z.max 0 (n - 1)].  A
      JavaScript number holds every integer below 2^53 exactly; rounding
      beyond that is outside the embedding.
    - [userReact], [image], [link] and [error] are strings, compared with
      [===] in the source and with [String.eqb] / [decide] here.
    - [JSON.parse], [JSON.stringify], [fetch] and [localStorage] belong to
      the platform.  A stored string is only ever inspected through its
      truthiness and through [JSON.parse], and only ever produced by
      [JSON.stringify]; it is therefore represented by what those two
      observe (type [text]).
    - A property of the component that would receive a value of another
      JavaScript type than its declared one (a string stored in [likes],
      say) leaves the typed state: the operation then yields [None].
    - [_share] and [render] read the state and never write it; they are
      not embedded. *)

From stdpp Require Import gmap strings list.
From Stdlib Require Import ZArith Lia.

Set Warnings "-register-all".

Local Open Scope string_scope.
Local Open Scope Z_scope.

(** ** JSON values and stored texts *)

(** What [JSON.parse] can return.  An object keeps its members in the
    order of the text. *)
Inductive json : Type :=
| JNull
| JBool (b : bool)
| JNum (n : Z)
| JStr (s : string)
| JArr (items : list json)
| JObj (members : list (string * json)).

(** A string held by [localStorage] or carried by an HTTP body.
    [Malformed s] is the text [s] itself, one that [JSON.parse] rejects
    with a SyntaxError (the empty string is such a text); [Doc j] is a
    JSON text whose parse is [j]. *)
Inductive text : Type :=
| Malformed (s : string)
| Doc (j : json).

(** [JSON.parse]: [None] stands for the SyntaxError it throws. *)
Definition JSON_parse (t : text) : option json :=
  match t with
  | Malformed _ => None
  | Doc j => Some j
  end.

(** [JSON.stringify] on a value built from numbers, strings, booleans and
    object literals. *)
Definition JSON_stringify (j : json) : text := Doc j.

(** Truthiness of a string: only the empty string is falsy.  A JSON text
    has at least one character. *)
Definition text_truthy (t : text) : bool :=
  match t with
  | Malformed s => negb (String.eqb s "")
  | Doc _ => true
  end.

(** The result of a property read [v.k]: a value, [undefined], or the
    TypeError of reading a property of [null]. *)
Inductive prop_read : Type :=
| Undefined
| Value (j : json)
| TypeError.

(** The member named [k] of an object; on a duplicated name the last
    member of the text wins, as in [JSON.parse]. *)
Fixpoint member (k : string) (ms : list (string * json)) : option json :=
  match ms with
  | [] => None
  | (k', v) :: rest =>
      match member k rest with
      | Some w => Some w
      | None => if String.eqb k' k then Some v else None
      end
  end.

(** [v.k] for the names the component reads ([likes], [dislikes],
    [userReact], [saved], [image], [link]): none of them is a property of
    the String, Number, Boolean or Array prototypes, so on a primitive or
    an array the read gives [undefined]. *)
Definition get (v : json) (k : string) : prop_read :=
  match v with
  | JNull => TypeError
  | JObj ms => match member k ms with Some w => Value w | None => Undefined end
  | _ => Undefined
  end.

(** [!!v] *)
Definition truthy (v : prop_read) : bool :=
  match v with
  | Value (JBool b) => b
  | Value (JNum n) => negb (Z.eqb n 0)
  | Value (JStr s) => negb (String.eqb s "")
  | Value (JArr _) | Value (JObj _) => true
  | Value JNull | Undefined | TypeError => false
  end.

(** [v ?? 0] stored into a Number property: [None] when [v] is neither
    nullish nor a number. *)
Definition nullish_or_count (v : prop_read) : option Z :=
  match v with
  | Undefined | Value JNull => Some 0
  | Value (JNum n) => Some n
  | _ => None
  end.

(** [v ?? ""] stored into a String property. *)
Definition nullish_or_string (v : prop_read) : option string :=
  match v with
  | Undefined | Value JNull => Some ""
  | Value (JStr s) => Some s
  | _ => None
  end.

(** ** Component state *)

(** The reactive properties the logic reads or writes. *)
Record CardState : Type := mkCard {
  image : string;
  link : string;
  visible : bool;
  loading : bool;
  error : string;
  likes : Z;
  dislikes : Z;
  saved : bool;
  userReact : string
}.

(** The state the constructor builds. *)
Definition constructor : CardState :=
  {| image := ""; link := ""; visible := false; loading := true; error := "";
     likes := 0; dislikes := 0; saved := false; userReact := "" |}.

Definition set_image (v : string) (st : CardState) : CardState :=
  mkCard v (link st) (visible st) (loading st) (error st)
         (likes st) (dislikes st) (saved st) (userReact st).
Definition set_link (v : string) (st : CardState) : CardState :=
  mkCard (image st) v (visible st) (loading st) (error st)
         (likes st) (dislikes st) (saved st) (userReact st).
Definition set_visible (v : bool) (st : CardState) : CardState :=
  mkCard (image st) (link st) v (loading st) (error st)
         (likes st) (dislikes st) (saved st) (userReact st).
Definition set_loading (v : bool) (st : CardState) : CardState :=
  mkCard (image st) (link st) (visible st) v (error st)
         (likes st) (dislikes st) (saved st) (userReact st).
Definition set_error (v : string) (st : CardState) : CardState :=
  mkCard (image st) (link st) (visible st) (loading st) v
         (likes st) (dislikes st) (saved st) (userReact st).
Definition set_likes (v : Z) (st : CardState) : CardState :=
  mkCard (image st) (link st) (visible st) (loading st) (error st)
         v (dislikes st) (saved st) (userReact st).
Definition set_dislikes (v : Z) (st : CardState) : CardState :=
  mkCard (image st) (link st) (visible st) (loading st) (error st)
         (likes st) v (saved st) (userReact st).
Definition set_saved (v : bool) (st : CardState) : CardState :=
  mkCard (image st) (link st) (visible st) (loading st) (error st)
         (likes st) (dislikes st) v (userReact st).
Definition set_userReact (v : string) (st : CardState) : CardState :=
  mkCard (image st) (link st) (visible st) (loading st) (error st)
         (likes st) (dislikes st) (saved st) v.

(** ** localStorage *)

(** [getItem k] is [sto !! k] ([None] for [null]); [setItem k v] is
    [<[k:=v]> sto]. *)
Abbreviation Storage := (gmap string text).

Definition GLOBAL_KEY : string := "insta-card:global".

(** [if (item)] on the result of [getItem]: [null] and the empty string
    are falsy. *)
Definition item_truthy (item : option text) : bool :=
  match item with
  | None => false
  | Some t => text_truthy t
  end.

(** [get storageKey()] *)
Definition storageKey (st : CardState) : string :=
  "insta-card:" ++ (if String.eqb (image st) "" then "pending" else image st).

(** [_hydrateFromStorage()]: the try/catch swallows both the SyntaxError
    of [JSON.parse] and the TypeError of [g.saved] on [null]. *)
Definition _hydrateFromStorage (st : CardState) (sto : Storage) : CardState :=
  match sto !! GLOBAL_KEY with
  | Some global =>
      if text_truthy global then
        match JSON_parse global with
        | Some g =>
            match get g "saved" with
            | TypeError => st
            | v => set_saved (truthy v) st
            end
        | None => st
        end
      else st
  | None => st
  end.

(** The object literal [_persist] serialises under the image key. *)
Definition reaction_record (st : CardState) : json :=
  JObj [("likes", JNum (likes st)); ("dislikes", JNum (dislikes st));
        ("userReact", JStr (userReact st)); ("saved", JBool (saved st))].

(** The object literal [_persist] serialises under the global key. *)
Definition global_record (st : CardState) : json :=
  JObj [("saved", JBool (saved st))].

(** [_persist()] *)
Definition _persist (st : CardState) (sto : Storage) : Storage :=
  let sto1 :=
    if negb (String.eqb (image st) "")
    then <[storageKey st := JSON_stringify (reaction_record st)]> sto
    else sto in
  <[GLOBAL_KEY := JSON_stringify (global_record st)]> sto1.

(** ** The fetch *)

Definition FAILURE_MESSAGE : string := "Failed to load fox image.".
Definition FOX_HOME : string := "https://randomfox.ca/".

(** How the request to the image API ends: the promise of [fetch] rejects
    (transport failure), or it resolves to a response with a status and a
    body. *)
Inductive FetchOutcome : Type :=
| Rejected
| Responded (status : Z) (body : text).

(** [res.ok]: the status is in the range 200-299. *)
Definition res_ok (status : Z) : bool :=
  (200 <=? status) && (status <=? 299).

(** How the [try] block of [_fetchFox] ends, with the state as the
    assignments made so far have left it. *)
Inductive completion : Type :=
| Normal (st : CardState)
| Thrown (st : CardState).

(** [data.link || "https://randomfox.ca/"] stored into [link]. *)
Definition link_or_home (v : prop_read) : option string :=
  match v with
  | Value (JStr s) => Some (if String.eqb s "" then FOX_HOME else s)
  | Value (JObj _) | Value (JArr _) => None
  | Value (JNum n) => if Z.eqb n 0 then Some FOX_HOME else None
  | Value (JBool b) => if b then None else Some FOX_HOME
  | Value JNull | Undefined | TypeError => Some FOX_HOME
  end.

(** [data.image] stored into [image]. *)
Definition image_of (v : prop_read) : option string :=
  match v with
  | Value (JStr s) => Some s
  | _ => None
  end.

(** The branch [if (prior) { const p = JSON.parse(prior); ... }] of
    [_fetchFox]: the four assignments from the parsed record.  Reading
    [p.likes] on [null] throws before anything is assigned. *)
Definition restore (p : json) (st : CardState) : option completion :=
  match get p "likes" with
  | TypeError => Some (Thrown st)
  | vl =>
      l ← nullish_or_count vl;
      d ← nullish_or_count (get p "dislikes");
      u ← nullish_or_string (get p "userReact");
      Some (Normal (set_saved (truthy (get p "saved"))
                     (set_userReact u (set_dislikes d (set_likes l st)))))
  end.

(** The lines of [_fetchFox] after [this.link = ...]: the lookup of the
    record stored for the image just fetched. *)
Definition reconcile (st : CardState) (sto : Storage) : option completion :=
  let prior := sto !! storageKey st in
  if item_truthy prior then
    match prior ≫= JSON_parse with
    | None => Some (Thrown st)
    | Some p => restore p st
    end
  else
    Some (Normal (set_userReact "" (set_dislikes 0 (set_likes 0 st)))).

(** The [try] block of [_fetchFox] from the point where the request
    settles. *)
Definition try_block (o : FetchOutcome) (st : CardState) (sto : Storage)
  : option completion :=
  match o with
  | Rejected => Some (Thrown st)
  | Responded status body =>
      if negb (res_ok status) then Some (Thrown st)
      else
        match JSON_parse body with
        | None => Some (Thrown st)
        | Some data =>
            match get data "image" with
            | TypeError => Some (Thrown st)
            | vi =>
                img ← image_of vi;
                lnk ← link_or_home (get data "link");
                reconcile (set_link lnk (set_image img st)) sto
            end
        end
  end.

(** [_fetchFox] up to its first [await]: the synchronous prefix. *)
Definition _fetchFox_begin (st : CardState) : CardState :=
  set_error "" (set_loading true st).

(** [_fetchFox] from the settling of the request to its end: the rest of
    the [try] block, the [catch] and the [finally]. *)
Definition _fetchFox_settle (o : FetchOutcome) (st : CardState) (sto : Storage)
  : option (CardState * Storage) :=
  c ← try_block o st sto;
  let st1 :=
    match c with
    | Normal s => s
    | Thrown s => set_error FAILURE_MESSAGE s
    end in
  let st2 := set_loading false st1 in
  Some (st2, _persist st2 sto).

(** [_fetchFox()] with nothing else running between the request and its
    outcome [o]. *)
Definition _fetchFox (o : FetchOutcome) (st : CardState) (sto : Storage)
  : option (CardState * Storage) :=
  _fetchFox_settle o (_fetchFox_begin st) sto.

(** ** Interactions *)

(** [_toggleSave()] *)
Definition _toggleSave (st : CardState) (sto : Storage) : CardState * Storage :=
  let st1 := set_saved (negb (saved st)) st in
  (st1, _persist st1 sto).

(** The state part of [_react(type)], statement by statement. *)
Definition react_state (type : string) (st : CardState) : CardState :=
  if String.eqb (userReact st) type then
    let st1 :=
      if String.eqb type "like"
      then set_likes (Z.max 0 (likes st - 1)) st else st in
    let st2 :=
      if String.eqb type "dislike"
      then set_dislikes (Z.max 0 (dislikes st1 - 1)) st1 else st1 in
    set_userReact "" st2
  else if String.eqb type "like" then
    let st1 :=
      if String.eqb (userReact st) "dislike"
      then set_dislikes (Z.max 0 (dislikes st - 1)) st else st in
    let st2 := set_likes (likes st1 + 1) st1 in
    set_userReact "like" st2
  else
    let st1 :=
      if String.eqb (userReact st) "like"
      then set_likes (Z.max 0 (likes st - 1)) st else st in
    let st2 := set_dislikes (dislikes st1 + 1) st1 in
    set_userReact "dislike" st2.

(** [_react(type)] *)
Definition _react (type : string) (st : CardState) (sto : Storage)
  : CardState * Storage :=
  let st1 := react_state type st in
  (st1, _persist st1 sto).

(** ** The visibility gate *)

(** The component with what surrounds it: its properties, whether the
    observer created by [connectedCallback] is observing, the requests
    sent to the image API (all of them, and those not yet settled) and
    [localStorage]. *)
Record World : Type := mkWorld {
  card : CardState;
  observing : bool;
  issued : nat;
  pending : nat;
  store : Storage
}.

(** [connectedCallback()]: a new observer observes the element. *)
Definition connectedCallback (w : World) : World :=
  mkWorld (card w) true (issued w) (pending w) (store w).

(** [disconnectedCallback()] *)
Definition disconnectedCallback (w : World) : World :=
  mkWorld (card w) false (issued w) (pending w) (store w).

(** The body of the guarded block of the observer callback: [visible]
    is set, the global preference is read, the request is sent and the
    observer is disconnected. *)
Definition activate (w : World) : World :=
  let st1 := set_visible true (card w) in
  let st2 := _hydrateFromStorage st1 (store w) in
  let st3 := _fetchFox_begin st2 in
  mkWorld st3 false (S (issued w)) (S (pending w)) (store w).

(** The arrow function given to [entries.forEach]; an entry is
    represented by its [isIntersecting] flag. *)
Definition on_entry (w : World) (isIntersecting : bool) : World :=
  if isIntersecting && negb (visible (card w)) then activate w else w.

(** The callback given to the IntersectionObserver. *)
Definition io_callback (entries : list bool) (w : World) : World :=
  foldl on_entry w entries.

(** [_refresh()]: a new request, with no hydration. *)
Definition _refresh (w : World) : World :=
  mkWorld (_fetchFox_begin (card w)) (observing w)
          (S (issued w)) (S (pending w)) (store w).

(** What can happen to a component. *)
Inductive Event : Type :=
| Connected
| Disconnected
| Intersect (entries : list bool)
| Settle (o : FetchOutcome)
| ToggleSave
| React (type : string)
| Refresh.

(** One event.  [None]: a request settles though none is pending, or
    the settled outcome leaves the typed state. *)
Definition step (w : World) (e : Event) : option World :=
  match e with
  | Connected => Some (connectedCallback w)
  | Disconnected => Some (disconnectedCallback w)
  | Intersect entries => Some (io_callback entries w)
  | Settle o =>
      match pending w with
      | O => None
      | S n =>
          r ← _fetchFox_settle o (card w) (store w);
          Some (mkWorld r.1 (observing w) (issued w) n r.2)
      end
  | ToggleSave =>
      let r := _toggleSave (card w) (store w) in
      Some (mkWorld r.1 (observing w) (issued w) (pending w) r.2)
  | React type =>
      let r := _react type (card w) (store w) in
      Some (mkWorld r.1 (observing w) (issued w) (pending w) r.2)
  | Refresh => Some (_refresh w)
  end.

(** A sequence of events, with every world passed through, in order. *)
Fixpoint run (w : World) (evs : list Event) : option (list World) :=
  match evs with
  | [] => Some [w]
  | e :: rest =>
      w1 ← step w e;
      tr ← run w1 rest;
      Some (w :: tr)
  end.

(** ** The reaction machine as the specification words it *)

(** The two kinds of reaction and the strings that stand for them. *)
Inductive Kind : Type := Like | Dislike.

Definition tag (k : Kind) : string :=
  match k with Like => "like" | Dislike => "dislike" end.

Definition other (k : Kind) : Kind :=
  match k with Like => Dislike | Dislike => Like end.

Definition counter (k : Kind) (st : CardState) : Z :=
  match k with Like => likes st | Dislike => dislikes st end.

Definition set_counter (k : Kind) (v : Z) (st : CardState) : CardState :=
  match k with Like => set_likes v st | Dislike => set_dislikes v st end.

#[global] Instance Kind_eq_dec : EqDecision Kind.
Proof. solve_decision. Defined.

(** The transition function of section 4.3 of the specification, written
    from its two sentences. *)
Definition react_spec (kind : Kind) (st : CardState) : CardState :=
  if decide (userReact st = tag kind) then
    set_userReact "" (set_counter kind (Z.max 0 (counter kind st - 1)) st)
  else
    let st1 :=
      if decide (userReact st = tag (other kind))
      then set_counter (other kind)
                       (Z.max 0 (counter (other kind) st - 1)) st
      else st in
    set_userReact (tag kind) (set_counter kind (counter kind st1 + 1) st1).

(** A sequence of [_react] calls. *)
Definition react_all (ks : list Kind) (st : CardState) (sto : Storage)
  : CardState * Storage :=
  foldl (fun r k => _react (tag k) r.1 r.2) (st, sto) ks.

(** The history of the reactions the user has placed, the newest first;
    [standing] tells whether the reaction has been undone since. *)
Record Placed : Type := mkPlaced { what : Kind; standing : bool }.

(** The most recent reaction that has not been undone. *)
Fixpoint most_recent_standing (h : list Placed) : option Kind :=
  match h with
  | [] => None
  | p :: older => if standing p then Some (what p) else most_recent_standing older
  end.

(** Undoing the most recent reaction that still stands. *)
Fixpoint undo_latest (h : list Placed) : list Placed :=
  match h with
  | [] => []
  | p :: older =>
      if standing p then mkPlaced (what p) false :: older
      else p :: undo_latest older
  end.

(** What a call of [react(k)] does to the history: pressing the kind
    that stands undoes it; any other press undoes what stands, if
    anything, and places [k]. *)
Definition record_call (h : list Placed) (k : Kind) : list Placed :=
  match most_recent_standing h with
  | Some k' =>
      if decide (k' = k) then undo_latest h
      else mkPlaced k true :: undo_latest h
  | None => mkPlaced k true :: h
  end.

(** The reaction a [userReact] string stands for, if any. *)
Definition kind_of (u : string) : option Kind :=
  if String.eqb u "like" then Some Like
  else if String.eqb u "dislike" then Some Dislike
  else None.

(** The string of a reaction or of none. *)
Definition tag_of (o : option Kind) : string :=
  match o with Some k => tag k | None => "" end.

(** The history a component starts from: the reaction its state carries,
    if it carries one. *)
Definition history_of (u : string) : list Placed :=
  match kind_of u with
  | Some k => [mkPlaced k true]
  | None => []
  end.

(** The number of placed reactions that still stand. *)
Fixpoint count_standing (h : list Placed) : nat :=
  match h with
  | [] => O
  | p :: older => ((if standing p then 1 else 0) + count_standing older)%nat
  end.

(** ** Notions used in the statements *)

(** What ties a state to a history: the counters are not negative, at
    most one placed reaction stands, and it is the one the state carries. *)
Definition tied (st : CardState) (h : list Placed) : Prop :=
  0 <= likes st /\ 0 <= dislikes st
  /\ (count_standing h <= 1)%nat
  /\ kind_of (userReact st) = most_recent_standing h.

(** Pressing the same kind [n] times in a row. *)
Fixpoint pressed (k : Kind) (n : nat) (u : string) : string :=
  match n with
  | O => u
  | S m => pressed k m (if decide (u = tag k) then "" else tag k)
  end.

(** The key under which the record of the image [img] is stored. *)
Definition image_key (img : string) : string :=
  "insta-card:" ++ (if String.eqb img "" then "pending" else img).

(** The image and the link a settled request brings, when the response
    has a 2xx status and a body that parses to a value with a string
    [image]. *)
Definition fetched (o : FetchOutcome) : option (string * string) :=
  match o with
  | Rejected => None
  | Responded status body =>
      if res_ok status then
        data ← JSON_parse body;
        img ← image_of (get data "image");
        lnk ← link_or_home (get data "link");
        Some (img, lnk)
      else None
  end.

(** A fetch failure in the sense of the specification: a transport
    failure or a status outside 200-299. *)
Definition fetch_failed (o : FetchOutcome) : Prop :=
  match o with
  | Rejected => True
  | Responded status _ => status < 200 \/ 299 < status
  end.

(** The state left by a successful fetch before the stored record is
    looked up. *)
Definition with_image (img lnk : string) (st : CardState) : CardState :=
  set_link lnk (set_image img st).

(** The [finally] block applied to the state [st]. *)
Definition finish (st : CardState) (sto : Storage) : CardState * Storage :=
  (set_loading false st, _persist (set_loading false st) sto).

(** The image used in the examples. *)
Definition fox1 : string := "https://randomfox.ca/images/1.jpg".

(** A response of the image API that carries [img]. *)
Definition fox_response (img : string) : FetchOutcome :=
  Responded 200 (Doc (JObj [("image", JStr img);
                            ("link", JStr "https://randomfox.ca/?i=1")])).

(** The standing reaction is backed by its counter. *)
Definition reaction_backed (st : CardState) : Prop :=
  (userReact st = "like" -> 1 <= likes st)
  /\ (userReact st = "dislike" -> 1 <= dislikes st).

(** The four values [_fetchFox] takes from a parsed record: a missing or
    null counter reads as 0, a missing or null reaction as the empty
    string, and [saved] is coerced to a boolean.  [None]: the record is
    [null] or holds a member of another type. *)
Definition record_fields (p : json) : option (Z * Z * string * bool) :=
  match get p "likes" with
  | TypeError => None
  | vl =>
      l ← nullish_or_count vl;
      d ← nullish_or_count (get p "dislikes");
      u ← nullish_or_string (get p "userReact");
      Some (l, d, u, truthy (get p "saved"))
  end.

(** A sequence of invocations of the observer callback. *)
Definition io_run (callbacks : list (list bool)) (w : World) : World :=
  foldl (fun w entries => io_callback entries w) w callbacks.

(** The number of times [visible] goes from false to true along a
    sequence of worlds. *)
Fixpoint rises (tr : list World) : nat :=
  match tr with
  | [] => O
  | w1 :: rest =>
      match rest with
      | [] => O
      | w2 :: _ =>
          ((if negb (visible (card w1)) && visible (card w2) then 1 else 0)
           + rises rest)%nat
      end
  end.

(** The state a completion carries. *)
Definition completion_state (c : completion) : CardState :=
  match c with Normal s | Thrown s => s end.

(** ** Sharing and rendering *)

(** The object [_share] hands to the platform. *)
Record ShareData : Type := mkShare {
  share_title : string;
  share_text : string;
  share_url : string
}.

(** [const shareData = {...}] of [_share]: the url is [link || image]. *)
Definition shareData (st : CardState) : ShareData :=
  mkShare "Cute fox 🦊"
          "Check out this fox from randomfox.ca"
          (if String.eqb (link st) "" then image st else link st).

(** What [_share] asks of the platform: [navigator.share(shareData)]
    when the browser has it, [navigator.clipboard.writeText(url)]
    otherwise.  Whether the request succeeds or fails, the component is
    left as it was (the [catch] is empty). *)
Inductive ShareRequest : Type :=
| NativeShare (d : ShareData)
| ClipboardWrite (s : string).

(** [_share()], given whether [navigator.share] exists. *)
Definition _share (has_native_share : bool) (st : CardState) : ShareRequest :=
  if has_native_share then NativeShare (shareData st)
  else ClipboardWrite (share_url (shareData st)).

(** The region of the card between header and footer. *)
Inductive Region : Type :=
| Skeleton
| ErrorBox (msg : string)
| ImageLink (href src : string).

(** What the template of [render] shows of the modelled properties: the
    state of the save button, the region, and for each reaction button
    whether it is active and the count it displays. *)
Record View : Type := mkView {
  save_on : bool;
  region : Region;
  like_active : bool;
  like_count : Z;
  dislike_active : bool;
  dislike_count : Z
}.

(** [render()]: [None] is the empty template of a card that is not
    visible. *)
Definition render (st : CardState) : option View :=
  if negb (visible st) then None
  else
    Some (mkView
            (saved st)
            (if loading st then Skeleton
             else if negb (String.eqb (error st) "") then ErrorBox (error st)
             else ImageLink (link st) (image st))
            (String.eqb (userReact st) "like") (likes st)
            (String.eqb (userReact st) "dislike") (dislikes st)).

(** ** Notions used in the further statements *)



(** Counters that are not negative and a reaction that is backed. *)
Definition good_state (st : CardState) : Prop :=
  0 <= likes st /\ 0 <= dislikes st /\ reaction_backed st.

(** The same of the values a stored record restores. *)
Definition good_fields (f : Z * Z * string * bool) : Prop :=
  let '(l, d, u, _) := f in
  0 <= l /\ 0 <= d /\ (u = "like" -> 1 <= l) /\ (u = "dislike" -> 1 <= d).

(** Every stored text that parses and can be restored restores good
    values. *)
Definition good_store (sto : Storage) : Prop :=
  forall (k : string) (p : json) (f : Z * Z * string * bool),
    sto !! k = Some (Doc p) -> record_fields p = Some f -> good_fields f.

(** Storage agrees with the component: the global preference is the
    component's [saved], and the record of the image shown, when its key
    is not the global one, is the component's. *)
Definition in_sync (st : CardState) (sto : Storage) : Prop :=
  sto !! GLOBAL_KEY = Some (JSON_stringify (global_record st))
  /\ (image st <> "" -> image st <> "global" ->
      sto !! storageKey st = Some (JSON_stringify (reaction_record st))).

(** The events that end with a call of [_persist]. *)
Definition persists (e : Event) : bool :=
  match e with
  | Settle _ | ToggleSave | React _ => true
  | _ => false
  end.

(** The events that can make a hidden card visible. *)
Definition intersecting (e : Event) : bool :=
  match e with
  | Intersect entries => existsb id entries
  | _ => false
  end.

(** The world a sequence of events ends in. *)
Definition outcome_of (w : World) (evs : list Event) : option World :=
  tr ← run w evs; last tr.

(** ** Basic facts *)

Lemma eqb_decide (a b : string) :
  String.eqb a b = bool_decide (a = b).
Proof.
  destruct (String.eqb_spec a b) as [E | E].
  - now rewrite bool_decide_eq_true_2.
  - now rewrite bool_decide_eq_false_2.
Qed.

Lemma tag_inj (k k' : Kind) : tag k = tag k' -> k = k'.
Proof. now destruct k, k'. Qed.

Lemma tag_nonempty (k : Kind) : tag k <> "".
Proof. now destruct k. Qed.

Lemma kind_of_tag (k : Kind) : kind_of (tag k) = Some k.
Proof. now destruct k. Qed.

Lemma kind_of_Some (u : string) (k : Kind) : kind_of u = Some k -> u = tag k.
Proof.
  unfold kind_of.
  destruct (String.eqb_spec u "like") as [-> | _]; [intros [= <-]; reflexivity |].
  destruct (String.eqb_spec u "dislike") as [-> | _]; [intros [= <-]; reflexivity |].
  discriminate.
Qed.

Lemma kind_of_empty : kind_of "" = None.
Proof. reflexivity. Qed.

(** ** The reaction machine *)

Lemma react_state_spec (kind : Kind) (st : CardState) :
  react_state (tag kind) st = react_spec kind st.
Proof.
  unfold react_state, react_spec.
  rewrite !eqb_decide.
  destruct kind; cbn [tag other counter set_counter];
    repeat case_bool_decide; repeat case_decide;
    try reflexivity; try congruence.
Qed.


(** The three cases of the transition, spelled out on the fields. *)
Lemma react_toggle_off (kind : Kind) (st : CardState) :
  userReact st = tag kind ->
  let st' := react_state (tag kind) st in
  counter kind st' = Z.max 0 (counter kind st - 1)
  /\ counter (other kind) st' = counter (other kind) st
  /\ userReact st' = "".
Proof.
  intros E. rewrite react_state_spec. unfold react_spec.
  rewrite decide_True by exact E.
  destruct kind; simpl; auto.
Qed.

Lemma react_switch (kind : Kind) (st : CardState) :
  userReact st = tag (other kind) ->
  let st' := react_state (tag kind) st in
  counter kind st' = counter kind st + 1
  /\ counter (other kind) st' = Z.max 0 (counter (other kind) st - 1)
  /\ userReact st' = tag kind.
Proof.
  intros E. rewrite react_state_spec. unfold react_spec.
  rewrite decide_False by (rewrite E; destruct kind; discriminate).
  rewrite decide_True by exact E.
  destruct kind; simpl; auto.
Qed.

Lemma react_first (kind : Kind) (st : CardState) :
  userReact st <> tag kind -> userReact st <> tag (other kind) ->
  let st' := react_state (tag kind) st in
  counter kind st' = counter kind st + 1
  /\ counter (other kind) st' = counter (other kind) st
  /\ userReact st' = tag kind.
Proof.
  intros E1 E2. rewrite react_state_spec. unfold react_spec.
  rewrite !decide_False by assumption.
  destruct kind; simpl; auto.
Qed.

(** ** Frame properties *)

(** C10. [_toggleSave()] changes no property other than [saved], and
    [_react(type)], for every [type], changes no property other than
    [likes], [dislikes] and [userReact]; in particular it changes neither
    [saved] nor [image]. *)
Theorem interactions_frame (type : string) (st : CardState) (sto : Storage) :
  (let st' := (_toggleSave st sto).1 in
   likes st' = likes st /\ dislikes st' = dislikes st
   /\ userReact st' = userReact st /\ image st' = image st
   /\ link st' = link st /\ loading st' = loading st
   /\ error st' = error st /\ visible st' = visible st)
  /\
  (let st' := (_react type st sto).1 in
   saved st' = saved st /\ image st' = image st /\ link st' = link st
   /\ loading st' = loading st /\ error st' = error st
   /\ visible st' = visible st).
Proof.
  split.
  - cbn. repeat split.
  - cbn. unfold react_state.
    repeat match goal with |- context [String.eqb ?a ?b] =>
      destruct (String.eqb a b) end; cbn; repeat split.
Qed.

(** ** Sequences of reactions *)

Lemma standing_none_count (h : list Placed) :
  most_recent_standing h = None <-> count_standing h = O.
Proof.
  induction h as [| [k s] older IH]; cbn; [tauto |].
  destruct s; cbn; [split; discriminate | exact IH].
Qed.

Lemma count_undo_latest (h : list Placed) :
  count_standing (undo_latest h) = Nat.pred (count_standing h).
Proof.
  induction h as [| [k s] older IH]; cbn; [reflexivity |].
  destruct s; cbn; [reflexivity | exact IH].
Qed.

Lemma undo_last_standing (h : list Placed) :
  (count_standing h <= 1)%nat -> most_recent_standing (undo_latest h) = None.
Proof.
  intros H. apply standing_none_count. rewrite count_undo_latest. lia.
Qed.

Lemma tied_initially (st : CardState) :
  0 <= likes st -> 0 <= dislikes st -> tied st (history_of (userReact st)).
Proof.
  intros Hl Hd. unfold tied, history_of.
  destruct (kind_of (userReact st)); cbn; repeat split; auto.
Qed.

Lemma kind_of_None_ne (u : string) (k : Kind) : kind_of u = None -> u <> tag k.
Proof. intros H ->. rewrite kind_of_tag in H. discriminate. Qed.

Lemma counters_nonneg (k : Kind) (st : CardState) :
  0 <= counter k st -> 0 <= counter (other k) st ->
  0 <= likes st /\ 0 <= dislikes st.
Proof. destruct k; cbn; tauto. Qed.

Lemma counters_of_nonneg (k : Kind) (st : CardState) :
  0 <= likes st -> 0 <= dislikes st ->
  0 <= counter k st /\ 0 <= counter (other k) st.
Proof. destruct k; cbn; tauto. Qed.

Lemma react_keeps_tied (k : Kind) (st : CardState) (h : list Placed) :
  tied st h ->
  tied (react_state (tag k) st) (record_call h k)
  /\ userReact (react_state (tag k) st)
     = tag_of (most_recent_standing (record_call h k)).
Proof.
  intros (Hl & Hd & Hc & Hu).
  destruct (counters_of_nonneg k st Hl Hd) as [Hk Ho].
  unfold tied, record_call.
  destruct (most_recent_standing h) as [k' |] eqn:Hm.
  - apply kind_of_Some in Hu.
    destruct (decide (k' = k)) as [-> | Hne].
    + destruct (react_toggle_off k st Hu) as (E1 & E2 & E3).
      rewrite (undo_last_standing h Hc), count_undo_latest, E3.
      split; [| reflexivity].
      assert (Hn : 0 <= likes (react_state (tag k) st)
                   /\ 0 <= dislikes (react_state (tag k) st))
        by (apply (counters_nonneg k); lia).
      destruct Hn. repeat split; auto; lia.
    + assert (k' = other k) as -> by (destruct k, k'; cbn; congruence).
      destruct (react_switch k st Hu) as (E1 & E2 & E3).
      cbn. rewrite count_undo_latest, E3, kind_of_tag.
      split; [| reflexivity].
      assert (Hn : 0 <= likes (react_state (tag k) st)
                   /\ 0 <= dislikes (react_state (tag k) st))
        by (apply (counters_nonneg k); lia).
      destruct Hn. repeat split; auto; lia.
  - destruct (react_first k st (kind_of_None_ne _ k Hu)
                (kind_of_None_ne _ (other k) Hu)) as (E1 & E2 & E3).
    cbn. rewrite E3, kind_of_tag.
    apply standing_none_count in Hm.
    split; [| reflexivity].
    assert (Hn : 0 <= likes (react_state (tag k) st)
                 /\ 0 <= dislikes (react_state (tag k) st))
      by (apply (counters_nonneg k); lia).
    destruct Hn. repeat split; auto; lia.
Qed.

Lemma react_all_cons (k : Kind) (ks : list Kind) (st : CardState) (sto : Storage) :
  react_all (k :: ks) st sto
  = react_all ks (react_state (tag k) st) (_persist (react_state (tag k) st) sto).
Proof. reflexivity. Qed.

Lemma react_all_tied (ks : list Kind) :
  forall (st : CardState) (sto : Storage) (h : list Placed),
    tied st h ->
    userReact st = tag_of (most_recent_standing h) ->
    let st' := (react_all ks st sto).1 in
    tied st' (foldl record_call h ks)
    /\ userReact st' = tag_of (most_recent_standing (foldl record_call h ks)).
Proof.
  induction ks as [| k ks IH]; intros st sto h Ht Hu; cbn zeta.
  - split; assumption.
  - rewrite react_all_cons. cbn [foldl].
    destruct (react_keeps_tied k st h Ht) as [Ht' Hu'].
    apply IH; assumption.
Qed.

(** C2. Start from any state whose two counters are not negative and
    make any finite sequence of [react(like)] / [react(dislike)] calls.
    After every call (after the first [n] calls, for every [n] from 1 to
    the length of the sequence) both counters are still not negative and
    [userReact] is the kind of the most recent reaction that has not been
    undone, or the empty string (none) when no reaction stands. *)
Theorem react_sequence_invariant
  (st : CardState) (sto : Storage) (ks : list Kind) (n : nat) :
  0 <= likes st -> 0 <= dislikes st ->
  (0 < n <= length ks)%nat ->
  let st' := (react_all (take n ks) st sto).1 in
  0 <= likes st' /\ 0 <= dislikes st'
  /\ userReact st'
     = tag_of (most_recent_standing
                 (foldl record_call (history_of (userReact st)) (take n ks))).
Proof.
  intros Hl Hd Hn.
  destruct (take n ks) as [| k rest] eqn:Hk.
  - apply (f_equal length) in Hk. rewrite length_take in Hk. cbn in Hk. lia.
  - cbn zeta. rewrite react_all_cons. cbn [foldl].
    destruct (react_keeps_tied k st _ (tied_initially st Hl Hd)) as [Ht Hu].
    destruct (react_all_tied rest _ (_persist (react_state (tag k) st) sto) _ Ht Hu)
      as [(Hl' & Hd' & _) Hu'].
    repeat split; assumption.
Qed.

Lemma react_sequence_invariant_witness :
  let st' := (react_all (take 3 [Like; Dislike; Dislike]) constructor ∅).1 in
  0 <= likes st' /\ 0 <= dislikes st'
  /\ userReact st'
     = tag_of (most_recent_standing
                 (foldl record_call (history_of (userReact constructor))
                        (take 3 [Like; Dislike; Dislike]))).
Proof.
  apply (react_sequence_invariant constructor ∅ [Like; Dislike; Dislike] 3);
    cbn; lia.
Defined.

Lemma react_all_app (ks1 ks2 : list Kind) (st : CardState) (sto : Storage) :
  react_all (ks1 ++ ks2) st sto
  = react_all ks2 (react_all ks1 st sto).1 (react_all ks1 st sto).2.
Proof.
  unfold react_all. rewrite foldl_app.
  now destruct (foldl _ (st, sto) ks1).
Qed.

Lemma userReact_react_state (k : Kind) (st : CardState) :
  userReact (react_state (tag k) st)
  = if decide (userReact st = tag k) then "" else tag k.
Proof.
  rewrite react_state_spec. unfold react_spec.
  destruct (decide (userReact st = tag k)); [reflexivity |].
  destruct k; reflexivity.
Qed.

Lemma react_all_replicate (k : Kind) (n : nat) :
  forall (st : CardState) (sto : Storage),
    userReact (react_all (replicate n k) st sto).1 = pressed k n (userReact st).
Proof.
  induction n as [| n IH]; intros st sto; [reflexivity |].
  cbn [replicate]. rewrite react_all_cons, IH, userReact_react_state.
  reflexivity.
Qed.

Lemma pressed_parity (k : Kind) (n : nat) :
  pressed k n (tag k) = (if Nat.even n then tag k else "")
  /\ pressed k n "" = (if Nat.even n then "" else tag k).
Proof.
  induction n as [| n [IH1 IH2]]; [split; reflexivity |].
  cbn [pressed]. rewrite Nat.even_succ, <- Nat.negb_even.
  rewrite decide_True by reflexivity.
  rewrite decide_False by (intros E; symmetry in E; now apply tag_nonempty in E).
  rewrite IH1, IH2. destruct (Nat.even n); split; reflexivity.
Qed.

Lemma pressed_fresh (k : Kind) (n : nat) (u : string) :
  u <> tag k -> (0 < n)%nat ->
  pressed k n u = if Nat.odd n then tag k else "".
Proof.
  intros Hu Hn. destruct n as [| n]; [lia |].
  cbn [pressed]. rewrite decide_False by exact Hu.
  rewrite (proj1 (pressed_parity k n)), Nat.odd_succ. reflexivity.
Qed.

(** A closed form that does not go through the history: after a run of
    [n] presses of the same kind [k] that follows a press of the other
    kind (or starts from a state whose reaction is not [k]), the reaction
    is [k] when [n] is odd and none when [n] is even. *)
Lemma react_sequence_closed_form
  (front : list Kind) (k : Kind) (n : nat) (st : CardState) (sto : Storage) :
  (0 < n)%nat ->
  match last front with
  | Some k' => k' <> k
  | None => userReact st <> tag k
  end ->
  userReact (react_all (front ++ replicate n k) st sto).1
  = if Nat.odd n then tag k else "".
Proof.
  intros Hn Hlast.
  rewrite react_all_app, react_all_replicate.
  apply pressed_fresh; [| exact Hn].
  destruct (last front) as [k' |] eqn:E.
  - apply last_Some in E as [front' ->].
    rewrite react_all_app.
    change (react_all [k'] ?a ?b) with (_react (tag k') a b).
    unfold _react. cbn [fst]. rewrite userReact_react_state.
    destruct (decide _).
    + intros E. symmetry in E. now apply tag_nonempty in E.
    + intros E. apply tag_inj in E. contradiction.
  - apply last_None in E as ->. exact Hlast.
Qed.

(** ** The fetch: what the request brought *)

Lemma storageKey_image_key (st : CardState) : storageKey st = image_key (image st).
Proof. reflexivity. Qed.

Lemma storageKey_with_image (img lnk : string) (st : CardState) :
  storageKey (with_image img lnk st) = image_key img.
Proof. reflexivity. Qed.

Lemma image_key_inj (a b : string) :
  a <> "" -> b <> "" -> image_key a = image_key b -> a = b.
Proof.
  intros Ha Hb. unfold image_key.
  destruct (String.eqb_spec a ""); [contradiction |].
  destruct (String.eqb_spec b ""); [contradiction |].
  cbv [String.append]. congruence.
Qed.

Lemma image_key_global (img : string) :
  image_key img = GLOBAL_KEY <-> img = "global".
Proof.
  unfold image_key, GLOBAL_KEY.
  destruct (String.eqb_spec img "") as [-> | Hne]; cbv [String.append].
  - split; discriminate.
  - split; [intros [= ->]; reflexivity | intros ->; reflexivity].
Qed.

Lemma try_block_fetched (o : FetchOutcome) (img lnk : string)
      (st : CardState) (sto : Storage) :
  fetched o = Some (img, lnk) ->
  try_block o st sto = reconcile (with_image img lnk st) sto.
Proof.
  destruct o as [| status body]; cbn; [discriminate |].
  destruct (res_ok status); cbn; [| discriminate].
  destruct (JSON_parse body) as [data |]; cbn; [| discriminate].
  destruct (get data "image") as [| [] |]; cbn; try discriminate.
  destruct (link_or_home (get data "link")); cbn; [| discriminate].
  now intros [= -> ->].
Qed.

Lemma try_block_failed (o : FetchOutcome) (st : CardState) (sto : Storage) :
  fetch_failed o -> try_block o st sto = Some (Thrown st).
Proof.
  destruct o as [| status body]; cbn; [reflexivity |].
  intros H. unfold res_ok.
  destruct (200 <=? status) eqn:E1, (status <=? 299) eqn:E2; cbn;
    try reflexivity; lia.
Qed.

Lemma settle_normal (o : FetchOutcome) (st s : CardState) (sto : Storage) :
  try_block o st sto = Some (Normal s) ->
  _fetchFox_settle o st sto = Some (finish s sto).
Proof. unfold _fetchFox_settle. now intros ->. Qed.

Lemma settle_thrown (o : FetchOutcome) (st s : CardState) (sto : Storage) :
  try_block o st sto = Some (Thrown s) ->
  _fetchFox_settle o st sto = Some (finish (set_error FAILURE_MESSAGE s) sto).
Proof. unfold _fetchFox_settle. now intros ->. Qed.

Lemma reconcile_absent (st : CardState) (sto : Storage) :
  item_truthy (sto !! storageKey st) = false ->
  reconcile st sto
  = Some (Normal (set_userReact "" (set_dislikes 0 (set_likes 0 st)))).
Proof. unfold reconcile. now intros ->. Qed.

Lemma reconcile_malformed (s : string) (st : CardState) (sto : Storage) :
  sto !! storageKey st = Some (Malformed s) -> s <> "" ->
  reconcile st sto = Some (Thrown st).
Proof.
  intros H Hs. unfold reconcile. rewrite H. cbn.
  now destruct (String.eqb_spec s "").
Qed.

Lemma reconcile_doc (p : json) (st : CardState) (sto : Storage) :
  sto !! storageKey st = Some (Doc p) ->
  reconcile st sto = restore p st.
Proof. intros H. unfold reconcile. now rewrite H. Qed.

(** ** Fetch failures *)

(** C5. When the request ends in a transport failure or in a status
    outside 200-299, [_fetchFox] ends with [loading] false and [error]
    equal to the fixed failure message, and [image], the two counters and
    [userReact] (and [link] and [saved]) are what they were before the
    call. *)
Theorem fetch_failure_keeps_image
  (o : FetchOutcome) (st : CardState) (sto : Storage) :
  fetch_failed o ->
  exists st' sto',
    _fetchFox o st sto = Some (st', sto')
    /\ loading st' = false
    /\ error st' = FAILURE_MESSAGE
    /\ image st' = image st
    /\ likes st' = likes st /\ dislikes st' = dislikes st
    /\ userReact st' = userReact st
    /\ link st' = link st /\ saved st' = saved st.
Proof.
  intros H. unfold _fetchFox.
  rewrite (settle_thrown o _ (_fetchFox_begin st) sto)
    by (apply try_block_failed; exact H).
  eexists _, _. split; [reflexivity |]. cbn. repeat split.
Qed.

Lemma fetch_failure_keeps_image_witness :
  exists st' sto',
    _fetchFox (Responded 500 (Malformed "Internal Server Error"))
              (mkCard "A" "l" true false "" 2 1 false "like") ∅
    = Some (st', sto')
    /\ loading st' = false
    /\ error st' = FAILURE_MESSAGE
    /\ image st' = "A"
    /\ likes st' = 2 /\ dislikes st' = 1
    /\ userReact st' = "like"
    /\ link st' = "l" /\ saved st' = false.
Proof.
  apply (fetch_failure_keeps_image
           (Responded 500 (Malformed "Internal Server Error"))
           (mkCard "A" "l" true false "" 2 1 false "like") ∅).
  cbn. lia.
Defined.

(** ** Reconciliation: no stored record *)

(** The [else] branch of the lookup: nothing (or the empty string) is
    stored under the key of the image the fetch brought. *)
Lemma fetch_no_record
  (o : FetchOutcome) (img lnk : string) (st : CardState) (sto : Storage) :
  fetched o = Some (img, lnk) ->
  item_truthy (sto !! image_key img) = false ->
  _fetchFox o st sto
  = Some (finish (set_userReact "" (set_dislikes 0 (set_likes 0
             (with_image img lnk (_fetchFox_begin st))))) sto).
Proof.
  intros Hf Hk. unfold _fetchFox.
  apply settle_normal.
  rewrite (try_block_fetched o img lnk) by exact Hf.
  apply reconcile_absent. now rewrite storageKey_with_image.
Qed.

(** C8. When a fetch succeeds and nothing is stored under the key of the
    image it brought, [_fetchFox] ends with both counters at 0 and no
    reaction, and [saved] is what it was before the call: the value the
    hydration from the global preference had produced. *)
Theorem fresh_image_resets
  (o : FetchOutcome) (img lnk : string) (st : CardState) (sto : Storage) :
  fetched o = Some (img, lnk) ->
  sto !! image_key img = None ->
  exists st' sto',
    _fetchFox o st sto = Some (st', sto')
    /\ likes st' = 0 /\ dislikes st' = 0 /\ userReact st' = ""
    /\ saved st' = saved st
    /\ image st' = img /\ link st' = lnk
    /\ error st' = "" /\ loading st' = false.
Proof.
  intros Hf Hk.
  rewrite (fetch_no_record o img lnk st sto Hf) by (now rewrite Hk).
  eexists _, _. split; [reflexivity |]. cbn. repeat split.
Qed.

Lemma fetched_fox_response (img : string) :
  fetched (fox_response img) = Some (img, "https://randomfox.ca/?i=1").
Proof. reflexivity. Qed.

Lemma fresh_image_resets_witness :
  exists st' sto',
    _fetchFox (fox_response fox1)
              (mkCard "A" "l" true false "" 2 1 true "like") ∅
    = Some (st', sto')
    /\ likes st' = 0 /\ dislikes st' = 0 /\ userReact st' = ""
    /\ saved st' = true
    /\ image st' = fox1 /\ link st' = "https://randomfox.ca/?i=1"
    /\ error st' = "" /\ loading st' = false.
Proof.
  apply (fresh_image_resets (fox_response fox1) fox1 "https://randomfox.ca/?i=1"
           (mkCard "A" "l" true false "" 2 1 true "like") ∅);
    reflexivity.
Defined.

(** On the activation path the value of [saved] that survives is the
    hydrated one. *)
Corollary fresh_image_keeps_hydrated_saved
  (o : FetchOutcome) (img lnk : string) (st : CardState) (sto : Storage) :
  fetched o = Some (img, lnk) ->
  sto !! image_key img = None ->
  exists st' sto',
    _fetchFox o (_hydrateFromStorage st sto) sto = Some (st', sto')
    /\ saved st' = saved (_hydrateFromStorage st sto)
    /\ likes st' = 0 /\ dislikes st' = 0 /\ userReact st' = "".
Proof.
  intros Hf Hk.
  rewrite (fetch_no_record o img lnk _ sto Hf) by (now rewrite Hk).
  eexists _, _. split; [reflexivity |]. cbn. repeat split.
Qed.

(** An empty string stored under the key is falsy and is treated like
    no record at all. *)
Lemma empty_record_resets
  (o : FetchOutcome) (img lnk : string) (st : CardState) (sto : Storage) :
  fetched o = Some (img, lnk) ->
  sto !! image_key img = Some (Malformed "") ->
  exists st' sto',
    _fetchFox o st sto = Some (st', sto')
    /\ likes st' = 0 /\ dislikes st' = 0 /\ userReact st' = ""
    /\ saved st' = saved st /\ error st' = "".
Proof.
  intros Hf Hk.
  rewrite (fetch_no_record o img lnk st sto Hf) by (now rewrite Hk).
  eexists _, _. split; [reflexivity |]. cbn. repeat split.
Qed.

(** ** Stored values that do not parse *)

(** Hydration: a global preference that does not parse is swallowed by
    the try/catch, and the state is the one an absent preference leaves. *)
Lemma hydrate_malformed_as_absent (s : string) (st : CardState) (sto : Storage) :
  sto !! GLOBAL_KEY = Some (Malformed s) ->
  _hydrateFromStorage st sto = _hydrateFromStorage st (delete GLOBAL_KEY sto).
Proof.
  intros H. unfold _hydrateFromStorage.
  rewrite H, lookup_delete_eq. cbn. now destruct (negb _).
Qed.

(** Reconciliation: [JSON.parse(prior)] is inside the [try] block whose
    [catch] reports a failed load, so a record that does not parse sets
    the failure message and leaves the counters and the reaction of the
    previous image in place. *)
Lemma fetch_malformed_record
  (o : FetchOutcome) (img lnk s : string) (st : CardState) (sto : Storage) :
  fetched o = Some (img, lnk) ->
  sto !! image_key img = Some (Malformed s) -> s <> "" ->
  exists st' sto',
    _fetchFox o st sto = Some (st', sto')
    /\ error st' = FAILURE_MESSAGE
    /\ image st' = img
    /\ likes st' = likes st /\ dislikes st' = dislikes st
    /\ userReact st' = userReact st /\ saved st' = saved st.
Proof.
  intros Hf Hk Hs. unfold _fetchFox.
  erewrite settle_thrown; cycle 1.
  { rewrite (try_block_fetched o img lnk) by exact Hf.
    apply (reconcile_malformed s); [| exact Hs].
    now rewrite storageKey_with_image. }
  eexists _, _. split; [reflexivity |]. cbn. repeat split.
Qed.

(** C3. A stored value that does not parse is treated as absent by the
    hydration, but not by the reconciliation after a successful fetch:
    with the text [{] stored under the key of the fetched image,
    [_fetchFox] ends with the failure message set and the old counters
    and reaction kept, where an absent record gives no message, counters
    at 0 and no reaction. *)
Theorem malformed_record_reports_failure :
  let st := mkCard "A" "l" true false "" 3 1 false "like" in
  let bad : Storage := {[ image_key fox1 := Malformed "{" ]} in
  let absent : Storage := ∅ in
  _hydrateFromStorage st {[ GLOBAL_KEY := Malformed "{" ]}
  = _hydrateFromStorage st absent
  /\ (fst <$> _fetchFox (fox_response fox1) st bad
      = Some (mkCard fox1 "https://randomfox.ca/?i=1" true false
                     FAILURE_MESSAGE 3 1 false "like"))
  /\ (fst <$> _fetchFox (fox_response fox1) st absent
      = Some (mkCard fox1 "https://randomfox.ca/?i=1" true false
                     "" 0 0 false "")).
Proof. vm_compute. repeat split. Qed.

(** ** Reconciliation: a stored record that parses *)

Lemma restore_record_fields (p : json) (l d : Z) (u : string) (s : bool)
      (st : CardState) :
  record_fields p = Some (l, d, u, s) ->
  restore p st
  = Some (Normal (set_saved s (set_userReact u (set_dislikes d (set_likes l st))))).
Proof.
  unfold record_fields, restore.
  destruct (get p "likes") as [| v |]; [| | discriminate].
  - cbn. destruct (nullish_or_count (get p "dislikes")); cbn; [| discriminate].
    destruct (nullish_or_string (get p "userReact")); cbn; [| discriminate].
    now intros [= -> -> -> ->].
  - destruct (nullish_or_count (Value v)); cbn; [| discriminate].
    destruct (nullish_or_count (get p "dislikes")); cbn; [| discriminate].
    destruct (nullish_or_string (get p "userReact")); cbn; [| discriminate].
    now intros [= -> -> -> ->].
Qed.

Lemma record_fields_reaction_record (st : CardState) :
  record_fields (reaction_record st)
  = Some (likes st, dislikes st, userReact st, saved st).
Proof. cbn. now destruct (saved st). Qed.

(** What a successful fetch restores from a record that parses. *)
Lemma fetch_restores_record
  (o : FetchOutcome) (img lnk : string) (p : json)
  (l d : Z) (u : string) (s : bool) (st : CardState) (sto : Storage) :
  fetched o = Some (img, lnk) ->
  sto !! image_key img = Some (Doc p) ->
  record_fields p = Some (l, d, u, s) ->
  _fetchFox o st sto
  = Some (finish (set_saved s (set_userReact u (set_dislikes d (set_likes l
             (with_image img lnk (_fetchFox_begin st)))))) sto).
Proof.
  intros Hf Hk Hp. unfold _fetchFox.
  apply settle_normal.
  rewrite (try_block_fetched o img lnk) by exact Hf.
  rewrite (reconcile_doc p) by (now rewrite storageKey_with_image).
  now apply restore_record_fields.
Qed.




(** A record written by [_persist] from a state whose reaction is backed
    restores a state whose reaction is backed. *)
Corollary persisted_record_backed
  (o : FetchOutcome) (img lnk : string) (src st : CardState) (sto : Storage) :
  fetched o = Some (img, lnk) ->
  sto !! image_key img = Some (JSON_stringify (reaction_record src)) ->
  reaction_backed src ->
  exists st' sto',
    _fetchFox o st sto = Some (st', sto') /\ reaction_backed st'.
Proof.
  intros Hf Hk Hb.
  rewrite (fetch_restores_record o img lnk (reaction_record src)
             _ _ _ _ st sto Hf Hk (record_fields_reaction_record src)).
  eexists _, _. split; [reflexivity |]. exact Hb.
Qed.

(** ** Persist, then reconcile *)

Lemma persist_lookup_global (st : CardState) (sto : Storage) :
  _persist st sto !! GLOBAL_KEY = Some (JSON_stringify (global_record st)).
Proof. unfold _persist. apply lookup_insert_eq. Qed.

Lemma persist_lookup_image (st : CardState) (sto : Storage) :
  image st <> "" -> image st <> "global" ->
  _persist st sto !! image_key (image st)
  = Some (JSON_stringify (reaction_record st)).
Proof.
  intros Hne Hng. unfold _persist.
  rewrite lookup_insert_ne
    by (intros E; symmetry in E; apply image_key_global in E; contradiction).
  destruct (String.eqb_spec (image st) ""); [contradiction |]. cbn.
  rewrite storageKey_image_key. apply lookup_insert_eq.
Qed.

Lemma persist_lookup_other (st : CardState) (sto : Storage) (k : string) :
  k <> GLOBAL_KEY -> k <> storageKey st ->
  _persist st sto !! k = sto !! k.
Proof.
  intros H1 H2. unfold _persist.
  rewrite lookup_insert_ne by congruence.
  destruct (negb _); [| reflexivity].
  now rewrite lookup_insert_ne by congruence.
Qed.

(** Round trip, for every image whose key is not the key of the global
    preference: the four persisted values come back. *)
Lemma persist_then_reconcile
  (o : FetchOutcome) (lnk : string) (src st : CardState) (sto : Storage) :
  image src <> "" -> image src <> "global" ->
  fetched o = Some (image src, lnk) ->
  exists st' sto',
    _fetchFox o st (_persist src sto) = Some (st', sto')
    /\ likes st' = likes src /\ dislikes st' = dislikes src
    /\ userReact st' = userReact src /\ saved st' = saved src.
Proof.
  intros Hne Hng Hf.
  rewrite (fetch_restores_record o (image src) lnk (reaction_record src)
             _ _ _ _ st _ Hf (persist_lookup_image src sto Hne Hng)
             (record_fields_reaction_record src)).
  eexists _, _. split; [reflexivity |]. cbn. repeat split.
Qed.

(** The scenario of the specification: the record stored for an image is
    [{likes:3, dislikes:1, userReact:"like", saved:true}] and the fetch
    brings that image again. *)
Example reconcile_scenario :
  fst <$> _fetchFox (fox_response fox1) constructor
            (_persist (mkCard fox1 "l" true false "" 3 1 true "like") ∅)
  = Some (mkCard fox1 "https://randomfox.ca/?i=1" false false "" 3 1 true "like").
Proof. vm_compute. reflexivity. Qed.


(** ** Saving *)



(** A stale record is replaced as well: the preference stored by another
    card is not what two calls leave. *)
Example toggleSave_twice_replaces_stale :
  let sto : Storage := {[ GLOBAL_KEY := Doc (JObj [("saved", JBool true)]) ]} in
  let r1 := _toggleSave constructor sto in
  let r2 := _toggleSave r1.1 r1.2 in
  r2.2 !! GLOBAL_KEY = Some (Doc (JObj [("saved", JBool false)]))
  /\ sto !! GLOBAL_KEY = Some (Doc (JObj [("saved", JBool true)])).
Proof. vm_compute. split; reflexivity. Qed.



(** ** The visibility gate *)

Lemma hydrate_visible (st : CardState) (sto : Storage) :
  visible (_hydrateFromStorage st sto) = visible st.
Proof. unfold _hydrateFromStorage. repeat case_match; reflexivity. Qed.

Lemma activate_visible (w : World) : visible (card (activate w)) = true.
Proof. cbn. now rewrite hydrate_visible. Qed.

Lemma restore_visible (p : json) (st : CardState) (c : completion) :
  restore p st = Some c -> visible (completion_state c) = visible st.
Proof.
  unfold restore. intros H.
  repeat case_match; simplify_option_eq; reflexivity.
Qed.

Lemma reconcile_visible (st : CardState) (sto : Storage) (c : completion) :
  reconcile st sto = Some c -> visible (completion_state c) = visible st.
Proof.
  unfold reconcile. intros H.
  destruct (item_truthy _).
  - destruct (_ ≫= JSON_parse) as [p |].
    + eapply restore_visible, H.
    + now inversion H.
  - now inversion H.
Qed.

Lemma try_block_visible (o : FetchOutcome) (st : CardState) (sto : Storage)
      (c : completion) :
  try_block o st sto = Some c -> visible (completion_state c) = visible st.
Proof.
  unfold try_block. intros H.
  destruct o as [| status body]; [now inversion H |].
  destruct (negb (res_ok status)); [now inversion H |].
  destruct (JSON_parse body) as [data |]; [| now inversion H].
  destruct (get data "image") as [| v |]; [| | now inversion H].
  - discriminate.
  - destruct (image_of (Value v)) as [img |]; [| discriminate].
    destruct (link_or_home (get data "link")) as [lnk |]; [| discriminate].
    cbn in H. now apply reconcile_visible in H.
Qed.

Lemma settle_visible (o : FetchOutcome) (st st' : CardState) (sto sto' : Storage) :
  _fetchFox_settle o st sto = Some (st', sto') -> visible st' = visible st.
Proof.
  unfold _fetchFox_settle. intros H.
  destruct (try_block o st sto) as [c |] eqn:E; [| discriminate].
  apply try_block_visible in E. cbn in H. inversion H; subst; clear H.
  destruct c; cbn in *; exact E.
Qed.

Lemma on_entry_visible (w : World) (e : bool) :
  visible (card w) = true -> on_entry w e = w.
Proof. intros H. unfold on_entry. rewrite H. now rewrite andb_false_r. Qed.

Lemma io_callback_visible (entries : list bool) (w : World) :
  visible (card w) = true -> io_callback entries w = w.
Proof.
  intros H. unfold io_callback.
  induction entries as [| e es IH]; cbn; [reflexivity |].
  now rewrite on_entry_visible.
Qed.

Lemma io_callback_hidden (entries : list bool) (w : World) :
  visible (card w) = false ->
  io_callback entries w = if existsb id entries then activate w else w.
Proof.
  unfold io_callback. revert w.
  induction entries as [| e es IH]; intros w H; cbn [foldl existsb]; [reflexivity |].
  destruct e; cbn [id orb].
  - unfold on_entry at 2. rewrite H. cbn [negb andb].
    apply (io_callback_visible es), activate_visible.
  - unfold on_entry at 2. cbn [andb]. now apply IH.
Qed.

Lemma io_run_visible (callbacks : list (list bool)) (w : World) :
  visible (card w) = true -> io_run callbacks w = w.
Proof.
  intros H. unfold io_run.
  induction callbacks as [| es rest IH]; cbn; [reflexivity |].
  now rewrite io_callback_visible.
Qed.

Lemma io_run_quiet (callbacks : list (list bool)) (w : World) :
  existsb (existsb id) callbacks = false ->
  visible (card w) = false ->
  io_run callbacks w = w.
Proof.
  intros Hq Hv. unfold io_run.
  induction callbacks as [| es rest IH]; cbn; [reflexivity |].
  cbn in Hq. apply orb_false_iff in Hq as [Hes Hrest].
  rewrite io_callback_hidden, Hes by exact Hv. now apply IH.
Qed.

Lemma io_run_app (a b : list (list bool)) (w : World) :
  io_run (a ++ b) w = io_run b (io_run a w).
Proof. unfold io_run. apply foldl_app. Qed.

Lemma react_state_visible (type : string) (st : CardState) :
  visible (react_state type st) = visible st.
Proof.
  unfold react_state.
  repeat match goal with |- context [String.eqb ?a ?b] =>
    destruct (String.eqb a b) end; reflexivity.
Qed.

Lemma step_keeps_visible (w w' : World) (e : Event) :
  step w e = Some w' -> visible (card w) = true -> visible (card w') = true.
Proof.
  destruct e as [| | entries | o | | type |]; cbn; intros H Hv.
  - now inversion H.
  - now inversion H.
  - inversion H; subst. now rewrite io_callback_visible.
  - destruct (pending w); [discriminate |].
    destruct (_fetchFox_settle o (card w) (store w)) as [[st' sto'] |] eqn:E;
      [| discriminate].
    cbn in H. inversion H; subst; cbn.
    now rewrite (settle_visible _ _ _ _ _ E).
  - now inversion H.
  - inversion H; subst; cbn. now rewrite react_state_visible.
  - now inversion H.
Qed.

Lemma run_head (evs : list Event) (w : World) (tr : list World) :
  run w evs = Some tr -> exists rest, tr = w :: rest.
Proof.
  destruct evs as [| e evs]; cbn; intros H.
  - inversion H. now exists [].
  - destruct (step w e) as [w1 |]; [| discriminate]. cbn in H.
    destruct (run w1 evs) as [tr1 |]; [| discriminate]. cbn in H.
    inversion H. now exists tr1.
Qed.

Lemma run_cons (e : Event) (evs : list Event) (w : World) (tr : list World) :
  run w (e :: evs) = Some tr ->
  exists w1 rest,
    step w e = Some w1 /\ run w1 evs = Some (w1 :: rest) /\ tr = w :: w1 :: rest.
Proof.
  cbn. intros H.
  destruct (step w e) as [w1 |]; [| discriminate]. cbn in H.
  destruct (run w1 evs) as [tr1 |] eqn:E; [| discriminate]. cbn in H.
  destruct (run_head _ _ _ E) as [rest ->].
  inversion H. now exists w1, rest.
Qed.

(** Once visible, always visible: no event makes [visible] rise again. *)
Lemma run_visible_no_rise (evs : list Event) :
  forall (w : World) (tr : list World),
    run w evs = Some tr -> visible (card w) = true -> rises tr = O.
Proof.
  induction evs as [| e evs IH]; intros w tr H Hv.
  - cbn in H. now inversion H.
  - destruct (run_cons _ _ _ _ H) as (w1 & rest & Hs & Hr & ->).
    pose proof (step_keeps_visible _ _ _ Hs Hv) as Hv1.
    specialize (IH _ _ Hr Hv1).
    change (rises (w :: w1 :: rest))
      with ((if negb (visible (card w)) && visible (card w1) then 1 else 0)
            + rises (w1 :: rest))%nat.
    rewrite IH, Hv. reflexivity.
Qed.

Lemma run_rises_once (evs : list Event) :
  forall (w : World) (tr : list World),
    run w evs = Some tr -> (rises tr <= 1)%nat.
Proof.
  induction evs as [| e evs IH]; intros w tr H.
  - cbn in H. inversion H. cbn. lia.
  - destruct (run_cons _ _ _ _ H) as (w1 & rest & Hs & Hr & ->).
    change (rises (w :: w1 :: rest))
      with ((if negb (visible (card w)) && visible (card w1) then 1 else 0)
            + rises (w1 :: rest))%nat.
    destruct (visible (card w1)) eqn:Hv1.
    + rewrite (run_visible_no_rise _ _ _ Hr Hv1).
      destruct (negb _ && true); lia.
    + rewrite andb_false_r. specialize (IH _ _ Hr). lia.
Qed.

(** C9. Take any sequence of invocations of the observer callback on a
    component that is not yet visible.  The invocations before the first
    one with an intersecting entry change nothing.  That first one sets
    [visible], hydrates [saved] from the global preference, starts the
    one fetch and disconnects the observer.  Every invocation after it
    changes nothing.  And along any sequence of events of any kind
    (callbacks, settled requests, user actions, refreshes, connects and
    disconnects) [visible] goes from false to true at most once. *)
Theorem gate_fires_once
  (w : World) (before : list (list bool)) (first : list bool)
  (after : list (list bool)) :
  visible (card w) = false ->
  existsb (existsb id) before = false ->
  existsb id first = true ->
  io_run before w = w
  /\ io_run (before ++ [first]) w = activate w
  /\ io_run (before ++ first :: after) w = activate w
  /\ visible (card (activate w)) = true
  /\ card (activate w)
     = _fetchFox_begin (_hydrateFromStorage (set_visible true (card w)) (store w))
  /\ issued (activate w) = S (issued w)
  /\ observing (activate w) = false
  /\ store (activate w) = store w
  /\ (forall entries, step (activate w) (Intersect entries) = Some (activate w))
  /\ (forall evs tr, run w evs = Some tr -> (rises tr <= 1)%nat).
Proof.
  intros Hv Hq Hf.
  assert (E1 : io_run before w = w) by (now apply io_run_quiet).
  assert (E2 : io_callback first w = activate w)
    by (now rewrite io_callback_hidden, Hf).
  split; [exact E1 |].
  split; [rewrite io_run_app, E1; cbn; exact E2 |].
  split.
  { rewrite io_run_app, E1. cbn [io_run foldl]. rewrite E2.
    apply io_run_visible, activate_visible. }
  split; [apply activate_visible |].
  repeat split.
  - intros entries. cbn [step]. f_equal.
    apply io_callback_visible, activate_visible.
  - intros evs tr. apply run_rises_once.
Qed.

Lemma gate_fires_once_witness :
  let w := mkWorld constructor true 0 0
                   {[ GLOBAL_KEY := Doc (JObj [("saved", JBool true)]) ]} in
  let before := [[false]; [false; false]] in
  let first := [false; true; true] in
  let after := [[true]; [false; true]] in
  io_run before w = w
  /\ io_run (before ++ [first]) w = activate w
  /\ io_run (before ++ first :: after) w = activate w
  /\ visible (card (activate w)) = true
  /\ card (activate w)
     = _fetchFox_begin (_hydrateFromStorage (set_visible true (card w)) (store w))
  /\ issued (activate w) = S (issued w)
  /\ observing (activate w) = false
  /\ store (activate w) = store w
  /\ (forall entries, step (activate w) (Intersect entries) = Some (activate w))
  /\ (forall evs tr, run w evs = Some tr -> (rises tr <= 1)%nat).
Proof.
  apply (gate_fires_once
           (mkWorld constructor true 0 0
                    {[ GLOBAL_KEY := Doc (JObj [("saved", JBool true)]) ]})
           [[false]; [false; false]] [false; true; true]
           [[true]; [false; true]]).
  - reflexivity.
  - reflexivity.
  - reflexivity.
Defined.

(** ** More on the persistence bridge *)

(** X1. [_persist] writes under at most two keys: every key other than
    the global one and the key of the current image keeps what it held,
    and with no image only the global key is written. *)
Theorem persist_touches_two_keys (st : CardState) (sto : Storage) (k : string) :
  k <> GLOBAL_KEY ->
  image st = "" \/ k <> storageKey st ->
  _persist st sto !! k = sto !! k.
Proof.
  intros Hg Hk. unfold _persist.
  rewrite lookup_insert_ne by congruence.
  destruct Hk as [He | Hk].
  - rewrite He. reflexivity.
  - destruct (negb _); [| reflexivity].
    now rewrite lookup_insert_ne by congruence.
Qed.

Lemma persist_touches_two_keys_witness :
  _persist (mkCard fox1 "l" true false "" 3 1 true "like")
           {[ "other-app:settings" := Malformed "dark" ]}
    !! "other-app:settings"
  = ({[ "other-app:settings" := Malformed "dark" ]} : Storage)
      !! "other-app:settings".
Proof.
  apply (persist_touches_two_keys
           (mkCard fox1 "l" true false "" 3 1 true "like")
           {[ "other-app:settings" := Malformed "dark" ]}
           "other-app:settings").
  - vm_compute. discriminate.
  - right. vm_compute. discriminate.
Defined.

(** X2. [_persist] is idempotent: persisting the same state a second
    time leaves [localStorage] as the first call left it, also when the
    key of the image is the global key. *)
Theorem persist_idempotent (st : CardState) (sto : Storage) :
  _persist st (_persist st sto) = _persist st sto.
Proof.
  apply map_eq. intros k. unfold _persist.
  destruct (negb (String.eqb (image st) ""));
    rewrite !lookup_insert; repeat case_decide; congruence.
Qed.

(** X3. Round trip of the global preference: whatever the storage held
    and whatever the hydrating component's own [saved] is, hydrating from
    a storage that a component has persisted into yields that
    component's [saved]. *)
Theorem hydrate_reads_persisted_saved (src st : CardState) (sto : Storage) :
  saved (_hydrateFromStorage st (_persist src sto)) = saved src.
Proof.
  unfold _hydrateFromStorage. rewrite persist_lookup_global.
  cbn. now destruct (saved src).
Qed.

(** X4. [_hydrateFromStorage] changes no property other than [saved],
    whatever [localStorage] holds. *)
Theorem hydrate_frame (st : CardState) (sto : Storage) :
  let st' := _hydrateFromStorage st sto in
  image st' = image st /\ link st' = link st /\ visible st' = visible st
  /\ loading st' = loading st /\ error st' = error st
  /\ likes st' = likes st /\ dislikes st' = dislikes st
  /\ userReact st' = userReact st.
Proof.
  cbn zeta. unfold _hydrateFromStorage.
  repeat case_match; cbn; repeat split.
Qed.

(** X5. A global preference that parses to anything other than [null]
    and has no [saved] member (an empty object, a number, a string, an
    array) switches [saved] off: [!!undefined] is false. *)
Theorem hydrate_without_flag_clears_saved
  (g : json) (st : CardState) (sto : Storage) :
  sto !! GLOBAL_KEY = Some (Doc g) ->
  get g "saved" = Undefined ->
  saved (_hydrateFromStorage st sto) = false.
Proof.
  intros Hk Hg. unfold _hydrateFromStorage. rewrite Hk. cbn. now rewrite Hg.
Qed.

Lemma hydrate_without_flag_clears_saved_witness :
  saved (_hydrateFromStorage (mkCard "" "" true true "" 0 0 true "")
                             {[ GLOBAL_KEY := Doc (JNum 5) ]})
  = false.
Proof.
  apply (hydrate_without_flag_clears_saved (JNum 5)); reflexivity.
Defined.

(** X6. Distinct images have distinct keys: two components that both
    show an image and compute the same storage key show the same image;
    and the key of a component is the global key only for the image
    [global]. *)
Theorem storageKey_injective (st1 st2 : CardState) :
  image st1 <> "" -> image st2 <> "" ->
  (storageKey st1 = storageKey st2 -> image st1 = image st2)
  /\ (storageKey st1 = GLOBAL_KEY <-> image st1 = "global").
Proof.
  intros H1 H2. rewrite !storageKey_image_key. split.
  - now apply image_key_inj.
  - apply image_key_global.
Qed.

Lemma storageKey_injective_witness :
  (storageKey (set_image fox1 constructor)
   = storageKey (set_likes 4 (set_image fox1 constructor)) ->
   image (set_image fox1 constructor)
   = image (set_likes 4 (set_image fox1 constructor)))
  /\ (storageKey (set_image fox1 constructor) = GLOBAL_KEY
      <-> image (set_image fox1 constructor) = "global").
Proof.
  apply (storageKey_injective (set_image fox1 constructor)
           (set_likes 4 (set_image fox1 constructor)));
    vm_compute; discriminate.
Defined.

(** ** More on the reaction machine *)

Ltac react_cases :=
  unfold react_state;
  repeat match goal with
         | |- context [String.eqb ?a ?b] =>
             destruct (String.eqb_spec a b); subst; cbn in *
         end.

Lemma react_state_good (type : string) (st : CardState) :
  0 <= likes st -> 0 <= dislikes st -> good_state (react_state type st).
Proof.
  intros Hl Hd. unfold good_state, reaction_backed.
  destruct st as [i l v lo e li di s u]; cbn in *.
  react_cases; repeat split; intros; try discriminate; try congruence; lia.
Qed.

(** X7. Whatever string [_react] is called with, from counters that are
    not negative it leaves counters that are not negative and a reaction
    that is backed: [userReact = like] comes with [likes >= 1] and
    [userReact = dislike] with [dislikes >= 1]. *)
Theorem react_establishes_backing (type : string) (st : CardState) (sto : Storage) :
  0 <= likes st -> 0 <= dislikes st ->
  let st' := (_react type st sto).1 in
  0 <= likes st' /\ 0 <= dislikes st'
  /\ (userReact st' = "like" -> 1 <= likes st')
  /\ (userReact st' = "dislike" -> 1 <= dislikes st').
Proof.
  intros Hl Hd. cbn.
  destruct (react_state_good type st Hl Hd) as (H1 & H2 & H3 & H4).
  repeat split; assumption.
Qed.

Lemma react_establishes_backing_witness :
  let st' := (_react "like" (mkCard fox1 "l" true false "" 0 0 false "like") ∅).1 in
  0 <= likes st' /\ 0 <= dislikes st'
  /\ (userReact st' = "like" -> 1 <= likes st')
  /\ (userReact st' = "dislike" -> 1 <= dislikes st').
Proof.
  apply (react_establishes_backing "like"
           (mkCard fox1 "l" true false "" 0 0 false "like") ∅); cbn; lia.
Defined.










(** ** More on the fetch *)

Lemma link_or_home_nonempty (v : prop_read) (lnk : string) :
  link_or_home v = Some lnk -> lnk <> "".
Proof.
  destruct v as [| [| b | n | s | |] |]; cbn; try discriminate.
  - now intros [= <-].
  - now intros [= <-].
  - destruct b; [discriminate | now intros [= <-]].
  - destruct (Z.eqb n 0); [now intros [= <-] | discriminate].
  - destruct (String.eqb_spec s ""); intros [= <-]; [discriminate | assumption].
  - now intros [= <-].
Qed.

Lemma fetched_link_nonempty (o : FetchOutcome) (img lnk : string) :
  fetched o = Some (img, lnk) -> lnk <> "".
Proof.
  destruct o as [| status body]; cbn; [discriminate |].
  destruct (res_ok status); [| discriminate].
  destruct (JSON_parse body) as [data |]; cbn; [| discriminate].
  destruct (image_of (get data "image")); cbn; [| discriminate].
  destruct (link_or_home (get data "link")) eqn:E; cbn; [| discriminate].
  intros [= _ <-]. eapply link_or_home_nonempty, E.
Qed.

Lemma restore_inv (p : json) (st : CardState) (c : completion) :
  restore p st = Some c ->
  c = Thrown st
  \/ exists l d u s,
       record_fields p = Some (l, d, u, s)
       /\ c = Normal (set_saved s (set_userReact u (set_dislikes d (set_likes l st)))).
Proof.
  unfold restore, record_fields.
  destruct (get p "likes") as [| v |].
  - cbn. destruct (nullish_or_count (get p "dislikes")) as [d |]; cbn; [| discriminate].
    destruct (nullish_or_string (get p "userReact")) as [u |]; cbn; [| discriminate].
    intros [= <-]. right. now exists 0, d, u, (truthy (get p "saved")).
  - destruct (nullish_or_count (Value v)) as [l |]; cbn; [| discriminate].
    destruct (nullish_or_count (get p "dislikes")) as [d |]; cbn; [| discriminate].
    destruct (nullish_or_string (get p "userReact")) as [u |]; cbn; [| discriminate].
    intros [= <-]. right. now exists l, d, u, (truthy (get p "saved")).
  - intros [= <-]. now left.
Qed.

(** The three ways the lookup of the stored record ends. *)
Lemma reconcile_inv (st : CardState) (sto : Storage) (c : completion) :
  reconcile st sto = Some c ->
  c = Thrown st
  \/ c = Normal (set_userReact "" (set_dislikes 0 (set_likes 0 st)))
  \/ exists p l d u s,
       sto !! storageKey st = Some (Doc p)
       /\ record_fields p = Some (l, d, u, s)
       /\ c = Normal (set_saved s (set_userReact u (set_dislikes d (set_likes l st)))).
Proof.
  unfold reconcile.
  destruct (sto !! storageKey st) as [[s | p] |] eqn:E; cbn.
  - destruct (negb _); intros [= <-]; auto.
  - intros H. apply restore_inv in H as [-> | (l & d & u & sv & Hf & ->)]; [auto |].
    right; right. now exists p, l, d, u, sv.
  - intros [= <-]. auto.
Qed.

(** The ways the [try] block ends: it throws before or after the image
    is assigned, or it completes after the lookup of the record. *)
Lemma try_block_inv (o : FetchOutcome) (st : CardState) (sto : Storage)
      (c : completion) :
  try_block o st sto = Some c ->
  (fetched o = None /\ c = Thrown st)
  \/ exists img lnk,
       fetched o = Some (img, lnk)
       /\ reconcile (with_image img lnk st) sto = Some c.
Proof.
  destruct (fetched o) as [[img lnk] |] eqn:Hf.
  - rewrite (try_block_fetched o img lnk st sto Hf). intros H.
    right. now exists img, lnk.
  - intros H. left. split; [reflexivity |].
    destruct o as [| status body]; cbn in *; [congruence |].
    destruct (res_ok status); cbn in *; [| congruence].
    destruct (JSON_parse body) as [data |]; cbn in *; [| congruence].
    destruct (get data "image") as [| v |]; cbn in *;
      try discriminate; try congruence.
    destruct v; cbn in *; try discriminate.
    destruct (link_or_home (get data "link")); cbn in *; discriminate.
Qed.

Lemma settle_inv (o : FetchOutcome) (st st' : CardState) (sto sto' : Storage) :
  _fetchFox_settle o st sto = Some (st', sto') ->
  sto' = _persist st' sto
  /\ exists c,
       try_block o st sto = Some c
       /\ st' = set_loading false
                 (match c with
                  | Normal s => s
                  | Thrown s => set_error FAILURE_MESSAGE s
                  end).
Proof.
  unfold _fetchFox_settle.
  destruct (try_block o st sto) as [c |]; cbn; [| discriminate].
  intros [= <- <-]. split; [reflexivity |]. now exists c.
Qed.

Lemma settle_error (o : FetchOutcome) (st st' : CardState) (sto sto' : Storage) :
  _fetchFox_settle o st sto = Some (st', sto') ->
  error st' = error st \/ error st' = FAILURE_MESSAGE.
Proof.
  intros H. apply settle_inv in H as (_ & c & Hc & ->).
  destruct c as [s | s]; [left | right; reflexivity].
  apply try_block_inv in Hc as [[_ [=]] | (img & lnk & _ & Hr)].
  apply reconcile_inv in Hr
    as [[=] | [[= ->] | (p & l & d & u & sv & _ & _ & [= ->])]]; reflexivity.
Qed.

Lemma settle_fetched (o : FetchOutcome) (img lnk : string)
      (st st' : CardState) (sto sto' : Storage) :
  fetched o = Some (img, lnk) ->
  _fetchFox_settle o st sto = Some (st', sto') ->
  image st' = img /\ link st' = lnk /\ loading st' = false.
Proof.
  intros Hf H. apply settle_inv in H as (_ & c & Hc & ->).
  apply try_block_inv in Hc as [[Hn _] | (img' & lnk' & Hf' & Hr)]; [congruence |].
  rewrite Hf in Hf'. injection Hf' as <- <-.
  apply reconcile_inv in Hr
    as [-> | [-> | (p & l & d & u & sv & _ & _ & ->)]]; repeat split.
Qed.

Lemma outcome_nil (w : World) : outcome_of w [] = Some w.
Proof. reflexivity. Qed.

Lemma outcome_cons (w : World) (e : Event) (evs : list Event) :
  outcome_of w (e :: evs) = step w e ≫= fun w1 => outcome_of w1 evs.
Proof.
  unfold outcome_of. cbn [run].
  destruct (step w e) as [w1 |]; cbn; [| reflexivity].
  destruct (run w1 evs) as [tr |] eqn:E; cbn; [| reflexivity].
  destruct (run_head _ _ _ E) as [rest ->]. reflexivity.
Qed.

Lemma outcome_snoc (evs : list Event) (e : Event) :
  forall w : World,
    outcome_of w (evs ++ [e])%list
    = outcome_of w evs ≫= fun w1 => step w1 e.
Proof.
  induction evs as [| e0 evs IH]; intros w.
  - cbn [app]. rewrite outcome_cons, outcome_nil. cbn.
    destruct (step w e); reflexivity.
  - cbn [app]. rewrite !outcome_cons.
    destruct (step w e0) as [w1 |]; cbn; [apply IH | reflexivity].
Qed.

Lemma step_settle_inv (w w' : World) (o : FetchOutcome) :
  step w (Settle o) = Some w' ->
  _fetchFox_settle o (card w) (store w) = Some (card w', store w').
Proof.
  cbn. destruct (pending w); [discriminate |].
  destruct (_fetchFox_settle o (card w) (store w)) as [[st' sto'] |];
    cbn; [| discriminate].
  now intros [= <-].
Qed.

(** X12. A response with a 2xx status whose body is not JSON, or is the
    JSON [null], ends like a failed request: the failure message is set,
    [loading] is false, and the image, the link, the counters, the
    reaction and [saved] are what they were. *)
Theorem unusable_body_is_a_failure
  (status : Z) (body : text) (st : CardState) (sto : Storage) :
  res_ok status = true ->
  JSON_parse body = None \/ JSON_parse body = Some JNull ->
  exists st' sto',
    _fetchFox (Responded status body) st sto = Some (st', sto')
    /\ error st' = FAILURE_MESSAGE /\ loading st' = false
    /\ image st' = image st /\ link st' = link st
    /\ likes st' = likes st /\ dislikes st' = dislikes st
    /\ userReact st' = userReact st /\ saved st' = saved st.
Proof.
  intros Hok Hb. unfold _fetchFox.
  rewrite (settle_thrown _ _ (_fetchFox_begin st) sto).
  - eexists _, _. split; [reflexivity |]. cbn. repeat split.
  - cbn. rewrite Hok. cbn. destruct Hb as [-> | ->]; reflexivity.
Qed.

Lemma unusable_body_is_a_failure_witness :
  exists st' sto',
    _fetchFox (Responded 200 (Malformed "<html>Bad gateway</html>"))
              (mkCard fox1 "l" true false "" 2 1 true "like") ∅
    = Some (st', sto')
    /\ error st' = FAILURE_MESSAGE /\ loading st' = false
    /\ image st' = fox1 /\ link st' = "l"
    /\ likes st' = 2 /\ dislikes st' = 1
    /\ userReact st' = "like" /\ saved st' = true.
Proof.
  apply (unusable_body_is_a_failure 200 (Malformed "<html>Bad gateway</html>")
           (mkCard fox1 "l" true false "" 2 1 true "like") ∅).
  - reflexivity.
  - left. reflexivity.
Defined.

(** X13. The last response wins: whatever events came before, and
    whatever the component showed, once a successful response settles the
    component holds the image and the link that response brought, the
    link is not empty and [loading] is false.  Nothing ties a response to
    the request that is the latest. *)
Theorem settled_response_wins
  (w wf : World) (evs : list Event) (o : FetchOutcome) (img lnk : string) :
  fetched o = Some (img, lnk) ->
  outcome_of w (evs ++ [Settle o])%list = Some wf ->
  image (card wf) = img /\ link (card wf) = lnk /\ lnk <> ""
  /\ loading (card wf) = false.
Proof.
  intros Hf H. rewrite outcome_snoc in H.
  destruct (outcome_of w evs) as [w1 |]; [| discriminate]. cbn [mbind option_bind] in H.
  apply step_settle_inv in H.
  destruct (settle_fetched o img lnk _ _ _ _ Hf H) as (E1 & E2 & E3).
  repeat split; try assumption. eapply fetched_link_nonempty, Hf.
Qed.

Lemma settled_response_wins_witness :
  let w := mkWorld constructor true 0 0 ∅ in
  let evs := [Intersect [true]; Refresh; Settle (fox_response "https://randomfox.ca/images/2.jpg")] in
  let wf := mkWorld (mkCard fox1 "https://randomfox.ca/?i=1" true false "" 0 0 false "")
                    false 2 0
                    (_persist (mkCard fox1 "https://randomfox.ca/?i=1" true false "" 0 0 false "")
                       (_persist (mkCard "https://randomfox.ca/images/2.jpg"
                                    "https://randomfox.ca/?i=1" true false "" 0 0 false "") ∅)) in
  image (card wf) = fox1 /\ link (card wf) = "https://randomfox.ca/?i=1"
  /\ "https://randomfox.ca/?i=1" <> ""
  /\ loading (card wf) = false.
Proof.
  apply (settled_response_wins
           (mkWorld constructor true 0 0 ∅) _
           [Intersect [true]; Refresh;
            Settle (fox_response "https://randomfox.ca/images/2.jpg")]
           (fox_response fox1) fox1 "https://randomfox.ca/?i=1").
  - reflexivity.
  - vm_compute. reflexivity.
Defined.

Lemma link_or_home_falsy (v : prop_read) :
  truthy v = false -> link_or_home v = Some FOX_HOME.
Proof.
  destruct v as [| [| b | n | s | |] |]; cbn; try reflexivity; try discriminate.
  - now intros ->.
  - intros H. apply negb_false_iff in H. now rewrite H.
  - intros H. apply negb_false_iff in H. now rewrite H.
Qed.

(** X14. When the response carries no link, or a falsy one (an empty
    string, [null], [false], 0), the component's link becomes the home
    page of the image API. *)
Theorem missing_link_defaults_to_home
  (status : Z) (body : text) (data : json) (img : string)
  (st st' : CardState) (sto sto' : Storage) :
  res_ok status = true ->
  JSON_parse body = Some data ->
  get data "image" = Value (JStr img) ->
  truthy (get data "link") = false ->
  _fetchFox (Responded status body) st sto = Some (st', sto') ->
  link st' = FOX_HOME /\ image st' = img.
Proof.
  intros Hok Hb Hi Hl H.
  assert (Hf : fetched (Responded status body) = Some (img, FOX_HOME)).
  { cbn. rewrite Hok, Hb. cbn. rewrite Hi. cbn.
    now rewrite (link_or_home_falsy _ Hl). }
  destruct (settle_fetched _ _ _ _ _ _ _ Hf H) as (E1 & E2 & _).
  split; assumption.
Qed.

Lemma missing_link_defaults_to_home_witness :
  link (mkCard fox1 FOX_HOME false false "" 0 0 false "") = FOX_HOME
  /\ image (mkCard fox1 FOX_HOME false false "" 0 0 false "") = fox1.
Proof.
  apply (missing_link_defaults_to_home 200
           (Doc (JObj [("image", JStr fox1)])) (JObj [("image", JStr fox1)])
           fox1 constructor _ ∅
           (_persist (mkCard fox1 FOX_HOME false false "" 0 0 false "") ∅));
    try reflexivity.
Defined.

(** X15. A successful response does not clear the error an overlapping
    request has left: after two refreshes, a failed response and then a
    successful one, the component holds the new image, [loading] is
    false, [error] is still the failure message, and a visible card
    shows that message in place of the image. *)
Theorem overlapping_failure_hides_image
  (w wf : World) (o1 o2 : FetchOutcome) (img lnk : string) :
  fetch_failed o1 ->
  fetched o2 = Some (img, lnk) ->
  outcome_of w [Refresh; Refresh; Settle o1; Settle o2] = Some wf ->
  image (card wf) = img
  /\ loading (card wf) = false
  /\ error (card wf) = FAILURE_MESSAGE
  /\ (visible (card w) = true ->
      region <$> render (card wf) = Some (ErrorBox FAILURE_MESSAGE)).
Proof.
  intros Hfail Hf H.
  change [Refresh; Refresh; Settle o1; Settle o2]
    with ([Refresh; Refresh; Settle o1] ++ [Settle o2])%list in H.
  rewrite outcome_snoc in H.
  destruct (outcome_of w [Refresh; Refresh; Settle o1]) as [w3 |] eqn:E3;
    [| discriminate].
  cbn [mbind option_bind] in H.
  do 2 (rewrite outcome_cons in E3; cbn [step mbind option_bind] in E3).
  rewrite outcome_cons in E3.
  cbn [step _refresh pending card store] in E3.
  rewrite (settle_thrown o1 _ (_fetchFox_begin (_fetchFox_begin (card w))) (store w))
    in E3 by (now apply try_block_failed).
  cbn [mbind option_bind] in E3. rewrite outcome_nil in E3.
  injection E3 as <-.
  pose proof (step_keeps_visible _ _ _ H) as Hv.
  apply step_settle_inv in H.
  destruct (settle_fetched o2 img lnk _ _ _ _ Hf H) as (E1 & _ & E2).
  destruct (settle_error _ _ _ _ _ H) as [Ee | Ee]; cbn in Ee.
  - repeat split; try assumption.
    intros Hw. unfold render. rewrite (Hv Hw), E2, Ee. reflexivity.
  - repeat split; try assumption.
    intros Hw. unfold render. rewrite (Hv Hw), E2, Ee. reflexivity.
Qed.

Lemma overlapping_failure_hides_image_witness :
  let w := mkWorld (mkCard "A" "l" true false "" 0 0 false "") false 1 0 ∅ in
  let st := mkCard fox1 "https://randomfox.ca/?i=1" true false FAILURE_MESSAGE
                   0 0 false "" in
  let wf := mkWorld st false 3 0
              (_persist st
                 (_persist (mkCard "A" "l" true false FAILURE_MESSAGE 0 0 false "") ∅)) in
  image (card wf) = fox1
  /\ loading (card wf) = false
  /\ error (card wf) = FAILURE_MESSAGE
  /\ (visible (card w) = true ->
      region <$> render (card wf) = Some (ErrorBox FAILURE_MESSAGE)).
Proof.
  apply (overlapping_failure_hides_image
           (mkWorld (mkCard "A" "l" true false "" 0 0 false "") false 1 0 ∅) _
           (Responded 503 (Malformed "")) (fox_response fox1)
           fox1 "https://randomfox.ca/?i=1").
  - cbn. lia.
  - reflexivity.
  - vm_compute. reflexivity.
Defined.

(** X16. The record of an image decides [saved]: when a successful fetch
    restores a stored record, [saved] becomes the record's flag (false
    when the record has none), whatever the hydration had produced, and
    the global preference in [localStorage] is overwritten with it. *)
Theorem restored_record_replaces_preference
  (o : FetchOutcome) (img lnk : string) (p : json)
  (l d : Z) (u : string) (s : bool) (st : CardState) (sto : Storage) :
  fetched o = Some (img, lnk) ->
  sto !! image_key img = Some (Doc p) ->
  record_fields p = Some (l, d, u, s) ->
  exists st' sto',
    _fetchFox o st sto = Some (st', sto')
    /\ saved st' = s
    /\ s = truthy (get p "saved")
    /\ sto' !! GLOBAL_KEY = Some (JSON_stringify (JObj [("saved", JBool s)])).
Proof.
  intros Hf Hk Hp.
  rewrite (fetch_restores_record o img lnk p l d u s st sto Hf Hk Hp).
  eexists _, _. split; [reflexivity |]. cbn [finish fst snd].
  rewrite persist_lookup_global. repeat split.
  unfold record_fields in Hp.
  destruct (get p "likes"); try discriminate;
    repeat match type of Hp with
           | context [nullish_or_count ?v] => destruct (nullish_or_count v)
           | context [nullish_or_string ?v] => destruct (nullish_or_string v)
           end; cbn in Hp; congruence.
Qed.

Lemma restored_record_replaces_preference_witness :
  exists st' sto',
    _fetchFox (fox_response fox1)
      (mkCard "A" "l" true false "" 0 0 true "")
      {[ image_key fox1 := Doc (JObj [("likes", JNum 2)]) ]}
    = Some (st', sto')
    /\ saved st' = false
    /\ false = truthy (get (JObj [("likes", JNum 2)]) "saved")
    /\ sto' !! GLOBAL_KEY = Some (JSON_stringify (JObj [("saved", JBool false)])).
Proof.
  apply (restored_record_replaces_preference (fox_response fox1) fox1
           "https://randomfox.ca/?i=1" (JObj [("likes", JNum 2)]) 2 0 "" false);
    reflexivity.
Defined.

(** X17. After a successful response has settled, sharing hands out the
    link, never the image address: with [navigator.share] the payload's
    url, without it the text written to the clipboard, is the link the
    response brought (or the home page when it brought none). *)
Theorem share_after_fetch_uses_link
  (o : FetchOutcome) (img lnk : string) (st st' : CardState) (sto sto' : Storage) :
  fetched o = Some (img, lnk) ->
  _fetchFox_settle o st sto = Some (st', sto') ->
  _share false st' = ClipboardWrite lnk
  /\ _share true st'
     = NativeShare (mkShare "Cute fox 🦊" "Check out this fox from randomfox.ca" lnk)
  /\ lnk <> "".
Proof.
  intros Hf H.
  destruct (settle_fetched o img lnk _ _ _ _ Hf H) as (_ & E & _).
  pose proof (fetched_link_nonempty o img lnk Hf) as Hn.
  unfold _share, shareData. cbn [share_url]. rewrite E.
  destruct (String.eqb_spec lnk ""); [contradiction |]. repeat split. exact Hn.
Qed.

Lemma share_after_fetch_uses_link_witness :
  let st' := mkCard fox1 FOX_HOME false false "" 0 0 false "" in
  _share false st' = ClipboardWrite FOX_HOME
  /\ _share true st'
     = NativeShare (mkShare "Cute fox 🦊" "Check out this fox from randomfox.ca" FOX_HOME)
  /\ FOX_HOME <> "".
Proof.
  apply (share_after_fetch_uses_link
           (Responded 200 (Doc (JObj [("image", JStr fox1)]))) fox1 FOX_HOME
           constructor _ ∅
           (_persist (mkCard fox1 FOX_HOME false false "" 0 0 false "") ∅));
    reflexivity.
Defined.

(** ** Invariants of the component *)

(** A property that every event keeps holds all along a run. *)
Lemma run_invariant (P : World -> Prop) :
  (forall w e w', step w e = Some w' -> P w -> P w') ->
  forall (evs : list Event) (w : World) (tr : list World),
    run w evs = Some tr -> P w -> Forall P tr.
Proof.
  intros Hstep. induction evs as [| e evs IH]; intros w tr H Hw.
  - cbn in H. injection H as <-. repeat constructor. exact Hw.
  - destruct (run_cons _ _ _ _ H) as (w1 & rest & Hs & Hr & ->).
    constructor; [exact Hw |].
    eapply IH; [exact Hr |]. eapply Hstep; eassumption.
Qed.

Lemma io_callback_cases (entries : list bool) (w : World) :
  io_callback entries w = w
  \/ (visible (card w) = false /\ existsb id entries = true
      /\ io_callback entries w = activate w).
Proof.
  destruct (visible (card w)) eqn:Hv.
  - left. now apply io_callback_visible.
  - rewrite (io_callback_hidden entries w Hv).
    destruct (existsb id entries); [right | left]; auto.
Qed.

Lemma step_keeps_hidden (w w' : World) (e : Event) :
  step w e = Some w' -> intersecting e = false ->
  visible (card w') = visible (card w).
Proof.
  destruct e as [| | entries | o | | type |]; cbn [intersecting]; intros H Hi.
  - now injection H as <-.
  - now injection H as <-.
  - cbn in H. injection H as <-.
    destruct (io_callback_cases entries w) as [-> | (_ & He & _)];
      [reflexivity | congruence].
  - apply step_settle_inv in H. eapply settle_visible, H.
  - now injection H as <-.
  - cbn in H. injection H as <-. cbn. apply react_state_visible.
  - now injection H as <-.
Qed.

(** X18. Nothing but an intersecting observer entry makes the card
    render: along any run of events in which no callback carries an
    intersecting entry (settled requests, user actions, refreshes,
    connects and disconnects included), a card that is not visible stays
    so and [render] gives the empty template in every world passed. *)
Theorem hidden_card_renders_nothing
  (w : World) (evs : list Event) (tr : list World) :
  visible (card w) = false ->
  forallb (fun e => negb (intersecting e)) evs = true ->
  run w evs = Some tr ->
  Forall (fun w' => visible (card w') = false /\ render (card w') = None) tr.
Proof.
  revert w tr. induction evs as [| e evs IH]; intros w tr Hv Hq H.
  - cbn in H. injection H as <-. repeat constructor; [exact Hv |].
    unfold render. now rewrite Hv.
  - destruct (run_cons _ _ _ _ H) as (w1 & rest & Hs & Hr & ->).
    cbn in Hq. apply andb_true_iff in Hq as [He Hq].
    apply negb_true_iff in He.
    constructor.
    + split; [exact Hv |]. unfold render. now rewrite Hv.
    + apply (IH w1); [| exact Hq | exact Hr].
      now rewrite (step_keeps_hidden _ _ _ Hs He).
Qed.

Lemma hidden_card_renders_nothing_witness :
  exists tr,
    run (mkWorld constructor true 1 1 ∅)
        [ToggleSave; Intersect [false]; Settle (fox_response fox1); React "like"]
    = Some tr
    /\ Forall (fun w' => visible (card w') = false /\ render (card w') = None) tr.
Proof.
  eexists. split; [vm_compute; reflexivity |].
  eapply (hidden_card_renders_nothing (mkWorld constructor true 1 1 ∅)
          [ToggleSave; Intersect [false]; Settle (fox_response fox1); React "like"]);
    vm_compute; reflexivity.
Defined.

Lemma persist_in_sync (st : CardState) (sto : Storage) :
  in_sync st (_persist st sto).
Proof.
  split; [apply persist_lookup_global |].
  intros Hne Hng. rewrite storageKey_image_key.
  now apply persist_lookup_image.
Qed.

Lemma hydrate_in_sync (st : CardState) (sto : Storage) :
  sto !! GLOBAL_KEY = Some (JSON_stringify (global_record st)) ->
  _hydrateFromStorage st sto = st.
Proof.
  intros H. unfold _hydrateFromStorage. rewrite H. cbn.
  destruct st as [i l v lo e li di s u]; cbn. now destruct s.
Qed.

Lemma activate_in_sync (w : World) :
  in_sync (card w) (store w) ->
  in_sync (card (activate w)) (store (activate w)).
Proof.
  intros [Hg Hi]. cbn [activate card store].
  rewrite (hydrate_in_sync (set_visible true (card w)) (store w)) by exact Hg.
  split; [exact Hg | exact Hi].
Qed.

(** X19. After any event that persists (a settled request, a save, a
    reaction) [localStorage] agrees with the component, and every other
    event keeps the agreement: the global preference is the component's
    [saved], and, for an image whose key is not the global key, the
    record stored for the image is the component's counters, reaction
    and [saved]. *)
Theorem storage_follows_component (w w' : World) (e : Event) :
  step w e = Some w' ->
  persists e = true \/ in_sync (card w) (store w) ->
  store w' !! GLOBAL_KEY = Some (JSON_stringify (global_record (card w')))
  /\ (image (card w') <> "" -> image (card w') <> "global" ->
      store w' !! storageKey (card w')
      = Some (JSON_stringify (reaction_record (card w')))).
Proof.
  intros H Hs. change (in_sync (card w') (store w')).
  destruct e as [| | entries | o | | type |]; cbn [persists] in Hs.
  - destruct Hs as [[=] | Hs]. now injection H as <-.
  - destruct Hs as [[=] | Hs]. now injection H as <-.
  - destruct Hs as [[=] | Hs]. cbn in H. injection H as <-.
    destruct (io_callback_cases entries w) as [-> | (_ & _ & ->)];
      [exact Hs | now apply activate_in_sync].
  - apply step_settle_inv in H.
    apply settle_inv in H as [-> _]. apply persist_in_sync.
  - cbn in H. injection H as <-. apply persist_in_sync.
  - cbn in H. injection H as <-. apply persist_in_sync.
  - destruct Hs as [[=] | Hs]. injection H as <-. exact Hs.
Qed.

Lemma storage_follows_component_witness :
  let w := mkWorld (mkCard fox1 "l" true false "" 3 1 false "like") false 1 0 ∅ in
  let w' := mkWorld (mkCard fox1 "l" true false "" 2 2 false "dislike") false 1 0
              (_persist (mkCard fox1 "l" true false "" 2 2 false "dislike") ∅) in
  store w' !! GLOBAL_KEY = Some (JSON_stringify (global_record (card w')))
  /\ (image (card w') <> "" -> image (card w') <> "global" ->
      store w' !! storageKey (card w')
      = Some (JSON_stringify (reaction_record (card w')))).
Proof.
  apply (storage_follows_component
           (mkWorld (mkCard fox1 "l" true false "" 3 1 false "like") false 1 0 ∅)
           _ (React "dislike")).
  - vm_compute. reflexivity.
  - left. reflexivity.
Defined.

Lemma hydrate_frame_fields (st : CardState) (sto : Storage) :
  likes (_hydrateFromStorage st sto) = likes st
  /\ dislikes (_hydrateFromStorage st sto) = dislikes st
  /\ userReact (_hydrateFromStorage st sto) = userReact st.
Proof.
  unfold _hydrateFromStorage. repeat case_match; cbn; repeat split.
Qed.

Lemma good_state_ext (a b : CardState) :
  likes b = likes a -> dislikes b = dislikes a -> userReact b = userReact a ->
  good_state a -> good_state b.
Proof.
  unfold good_state, reaction_backed. intros -> -> ->. tauto.
Qed.

Lemma good_fields_state (l d : Z) (u : string) (s : bool) (st : CardState) :
  good_fields (l, d, u, s) ->
  good_state (set_saved s (set_userReact u (set_dislikes d (set_likes l st)))).
Proof.
  unfold good_fields, good_state, reaction_backed. cbn. tauto.
Qed.

Lemma persist_good_store (st : CardState) (sto : Storage) :
  good_state st -> good_store sto -> good_store (_persist st sto).
Proof.
  intros (Hl & Hd & Hbl & Hbd) Hsto k p f Hk Hf.
  unfold _persist in Hk. rewrite lookup_insert in Hk.
  destruct (decide (GLOBAL_KEY = k)) as [_ | _].
  - injection Hk as <-. cbn in Hf. injection Hf as <-.
    cbn. repeat split; try lia; discriminate.
  - destruct (negb (String.eqb (image st) "")).
    + rewrite lookup_insert in Hk.
      destruct (decide (storageKey st = k)) as [_ | _].
      * injection Hk as <-. rewrite record_fields_reaction_record in Hf.
        injection Hf as <-. cbn. auto.
      * eapply Hsto; eassumption.
    + eapply Hsto; eassumption.
Qed.

Lemma reconcile_good (st : CardState) (sto : Storage) (c : completion) :
  good_state st -> good_store sto ->
  reconcile st sto = Some c -> good_state (completion_state c).
Proof.
  intros Hg Hsto H.
  apply reconcile_inv in H as [-> | [-> | (p & l & d & u & s & Hk & Hf & ->)]].
  - exact Hg.
  - cbn. unfold good_state, reaction_backed. cbn.
    repeat split; try lia; discriminate.
  - cbn [completion_state]. apply good_fields_state.
    eapply Hsto; eassumption.
Qed.

Lemma settle_good (o : FetchOutcome) (st st' : CardState) (sto sto' : Storage) :
  good_state st -> good_store sto ->
  _fetchFox_settle o st sto = Some (st', sto') ->
  good_state st' /\ good_store sto'.
Proof.
  intros Hg Hsto H.
  apply settle_inv in H as (-> & c & Hc & ->).
  assert (Hc' : good_state (completion_state c)).
  { apply try_block_inv in Hc as [[_ ->] | (img & lnk & _ & Hr)]; [exact Hg |].
    eapply reconcile_good; [| exact Hsto | exact Hr].
    eapply good_state_ext; [| | | exact Hg]; reflexivity. }
  assert (Hst : good_state
                  (set_loading false
                     match c with
                     | Normal s => s
                     | Thrown s => set_error FAILURE_MESSAGE s
                     end)).
  { destruct c as [s | s]; cbn in Hc';
      (eapply good_state_ext; [| | | exact Hc']; reflexivity). }
  split; [exact Hst | now apply persist_good_store].
Qed.

Lemma step_good (w w' : World) (e : Event) :
  step w e = Some w' ->
  good_state (card w) /\ good_store (store w) ->
  good_state (card w') /\ good_store (store w').
Proof.
  intros H [Hg Hsto].
  destruct e as [| | entries | o | | type |].
  - injection H as <-. now split.
  - injection H as <-. now split.
  - cbn in H. injection H as <-.
    destruct (io_callback_cases entries w) as [-> | (_ & _ & ->)]; [now split |].
    cbn [activate card store]. split; [| exact Hsto].
    destruct (hydrate_frame_fields (set_visible true (card w)) (store w))
      as (E1 & E2 & E3).
    eapply good_state_ext; [| | | exact Hg]; cbn; assumption.
  - apply step_settle_inv in H. eapply settle_good; eassumption.
  - cbn in H. injection H as <-. cbn [card store].
    assert (Hg' : good_state (set_saved (negb (saved (card w))) (card w)))
      by (eapply good_state_ext; [| | | exact Hg]; reflexivity).
    split; [exact Hg' | now apply persist_good_store].
  - cbn in H. injection H as <-. cbn [card store].
    destruct Hg as (Hl & Hd & _).
    pose proof (react_state_good type (card w) Hl Hd) as Hg'.
    split; [exact Hg' | now apply persist_good_store].
  - injection H as <-. cbn [_refresh card store]. split; [| exact Hsto].
    eapply good_state_ext; [| | | exact Hg]; reflexivity.
Qed.

(** X20. The counters never go negative and the standing reaction stays
    backed for as long as the records in [localStorage] say so: if the
    component starts with counters that are not negative and a backed
    reaction, and every stored record that can be restored has such
    values, then along any run of events (intersections, settled
    requests of any outcome, saves, reactions with any string,
    refreshes) every world passed has [likes >= 0], [dislikes >= 0],
    [userReact = like] only with [likes >= 1], [userReact = dislike]
    only with [dislikes >= 1], and a storage that still has the
    property. *)
Theorem counters_stay_good
  (w : World) (evs : list Event) (tr : list World) :
  good_state (card w) -> good_store (store w) ->
  run w evs = Some tr ->
  Forall (fun w' =>
            (0 <= likes (card w') /\ 0 <= dislikes (card w')
             /\ (userReact (card w') = "like" -> 1 <= likes (card w'))
             /\ (userReact (card w') = "dislike" -> 1 <= dislikes (card w')))
            /\ good_store (store w')) tr.
Proof.
  intros Hg Hsto H.
  apply (run_invariant
           (fun w' => good_state (card w') /\ good_store (store w'))
           (fun w0 e w1 => step_good w0 w1 e) evs w tr H).
  now split.
Qed.

Lemma counters_stay_good_witness :
  exists tr,
    run (mkWorld constructor true 0 0
           {[ image_key fox1 :=
                Doc (JObj [("likes", JNum 3); ("userReact", JStr "like")]) ]})
        [Intersect [true]; React "dislike"; Settle (fox_response fox1);
         React "like"; ToggleSave; Refresh; Settle Rejected; React "love"]
    = Some tr
    /\ Forall (fun w' =>
                 (0 <= likes (card w') /\ 0 <= dislikes (card w')
                  /\ (userReact (card w') = "like" -> 1 <= likes (card w'))
                  /\ (userReact (card w') = "dislike" -> 1 <= dislikes (card w')))
                 /\ good_store (store w')) tr.
Proof.
  eexists. split; [vm_compute; reflexivity |].
  eapply (counters_stay_good
            (mkWorld constructor true 0 0
               {[ image_key fox1 :=
                    Doc (JObj [("likes", JNum 3); ("userReact", JStr "like")]) ]})
            [Intersect [true]; React "dislike"; Settle (fox_response fox1);
             React "like"; ToggleSave; Refresh; Settle Rejected; React "love"]).
  - repeat split; cbn; try lia; discriminate.
  - intros k p f Hk Hf. cbn [store] in Hk.
    apply lookup_singleton_Some in Hk as [_ [= <-]].
    vm_compute in Hf. injection Hf as <-.
    repeat split; cbn; try lia; discriminate.
  - vm_compute. reflexivity.
Defined.

(** ** What the card shows after a fetch *)

(** X21. After a failed fetch a visible card shows the failure message
    in place of the image, although the image it had is still held in
    [image]. *)
Theorem failed_fetch_shows_message
  (o : FetchOutcome) (st : CardState) (sto : Storage) :
  fetch_failed o -> visible st = true ->
  exists st' sto',
    _fetchFox o st sto = Some (st', sto')
    /\ region <$> render st' = Some (ErrorBox FAILURE_MESSAGE)
    /\ image st' = image st.
Proof.
  intros Hf Hv. unfold _fetchFox.
  rewrite (settle_thrown o _ (_fetchFox_begin st) sto)
    by (now apply try_block_failed).
  eexists _, _. split; [reflexivity |].
  unfold render. cbn. rewrite Hv. cbn. split; reflexivity.
Qed.

Lemma failed_fetch_shows_message_witness :
  exists st' sto',
    _fetchFox Rejected (mkCard fox1 "l" true false "" 2 1 false "like") ∅
    = Some (st', sto')
    /\ region <$> render st' = Some (ErrorBox FAILURE_MESSAGE)
    /\ image st' = fox1.
Proof.
  apply (failed_fetch_shows_message Rejected
           (mkCard fox1 "l" true false "" 2 1 false "like") ∅);
    [exact I | reflexivity].
Defined.





(** X23. A stored record that does not parse is replaced by the
    reactions of the image shown before: the fetch keeps the old
    counters, reaction and [saved], and its final [_persist] writes them
    under the key of the new image. *)
Theorem malformed_record_is_overwritten
  (o : FetchOutcome) (img lnk s : string) (st : CardState) (sto : Storage) :
  fetched o = Some (img, lnk) ->
  img <> "" -> img <> "global" ->
  sto !! image_key img = Some (Malformed s) -> s <> "" ->
  exists st' sto',
    _fetchFox o st sto = Some (st', sto')
    /\ sto' !! image_key img
       = Some (JSON_stringify
                 (JObj [("likes", JNum (likes st)); ("dislikes", JNum (dislikes st));
                        ("userReact", JStr (userReact st)); ("saved", JBool (saved st))])).
Proof.
  intros Hf Hne Hng Hk Hs. unfold _fetchFox.
  erewrite settle_thrown; cycle 1.
  { rewrite (try_block_fetched o img lnk) by exact Hf.
    apply (reconcile_malformed s); [| exact Hs].
    now rewrite storageKey_with_image. }
  eexists _, _. split; [reflexivity |]. cbn [finish snd].
  set (st2 := set_loading false _).
  change img with (image st2).
  rewrite persist_lookup_image by assumption. reflexivity.
Qed.

Lemma malformed_record_is_overwritten_witness :
  exists st' sto',
    _fetchFox (fox_response fox1)
              (mkCard "A" "l" true false "" 3 1 false "like")
              {[ image_key fox1 := Malformed "{" ]}
    = Some (st', sto')
    /\ sto' !! image_key fox1
       = Some (JSON_stringify
                 (JObj [("likes", JNum 3); ("dislikes", JNum 1);
                        ("userReact", JStr "like"); ("saved", JBool false)])).
Proof.
  apply (malformed_record_is_overwritten (fox_response fox1) fox1
           "https://randomfox.ca/?i=1" "{"
           (mkCard "A" "l" true false "" 3 1 false "like")
           {[ image_key fox1 := Malformed "{" ]});
    vm_compute; first [reflexivity | discriminate].
Defined.
